(** * postgres-mcp-server: the request pipeline of [server.py]

    A shallow embedding of the decision logic of [server.py]: the
    statement classifier [is_read_only], the role gate and the result
    bounder inlined in [query], [redact], [parse_malformed_json] and the
    guards of [describe_table].

    Strings.  A Python [str] is modelled as a Rocq [string] whose
    characters are the code points 0..255.  Whitespace, case mapping and
    the regular-expression classes are those Python applies to these
    code points.

    Effects.  The database is a collaborator of the program: its answers
    are a parameter ([Backend]) and every call made to it is recorded in
    a trace.  Python's [json.loads] and the pydantic constructor of
    [TableIdent] are library code and are parameters as well ([PyLib]). *)

From Stdlib Require Import ZArith List Bool Lia.
From Stdlib Require Import Strings.String Strings.Ascii Numbers.DecimalString.
From Stdlib Require Import Floats.SpecFloat.
From Stdlib Require DecimalPos DecimalZ.
Import ListNotations.

Set Warnings "-register-all".

Open Scope list_scope.
Open Scope string_scope.
Open Scope nat_scope.

(** ** Python string primitives *)

Module PyStr.

(** [str.isspace] on one code point below 256: TAB..CR, FS..US, SPACE,
    NEL (0x85) and NBSP (0xA0). *)
Definition is_space (c : ascii) : bool :=
  let n := nat_of_ascii c in
  ((9 <=? n) && (n <=? 13)) || ((28 <=? n) && (n <=? 32))
  || (n =? 133) || (n =? 160).

(** [str.lower] on one code point below 256: A..Z and the Latin-1
    capitals 0xC0..0xDE (0xD7, the multiplication sign, excepted). *)
Definition lower_char (c : ascii) : ascii :=
  let n := nat_of_ascii c in
  if ((65 <=? n) && (n <=? 90))
     || ((192 <=? n) && (n <=? 222) && negb (n =? 215))
  then ascii_of_nat (n + 32) else c.

Fixpoint lower (s : string) : string :=
  match s with
  | EmptyString => EmptyString
  | String c r => String (lower_char c) (lower r)
  end.

(** Truth value of a string: non-empty. *)
Definition nonempty (s : string) : bool :=
  match s with EmptyString => false | String _ _ => true end.

(** [s.lstrip()] *)
Fixpoint lstrip (s : string) : string :=
  match s with
  | EmptyString => EmptyString
  | String c r => if is_space c then lstrip r else s
  end.

(** [s.rstrip()] *)
Fixpoint rstrip (s : string) : string :=
  match s with
  | EmptyString => EmptyString
  | String c r =>
      let r' := rstrip r in
      if is_space c && negb (nonempty r') then EmptyString else String c r'
  end.

(** [s.strip()] *)
Definition strip (s : string) : string := rstrip (lstrip s).

Definition snoc (s : string) (c : ascii) : string :=
  s ++ String c EmptyString.

(** [s.split(None, maxsplit)]: runs of whitespace separate the words;
    once [maxsplit] words have been cut off, the rest of the string,
    without its leading whitespace, is the last element.  [maxsplit] is
    [None] for an unbounded split.  [cur] is the word being read. *)
Fixpoint split_ws_from (maxsplit : option nat) (cur : option string)
    (s : string) : list string :=
  match s with
  | EmptyString => match cur with Some w => [w] | None => [] end
  | String c r =>
      if is_space c then
        match cur with
        | Some w => w :: split_ws_from (option_map Nat.pred maxsplit) None r
        | None => split_ws_from maxsplit None r
        end
      else
        match cur with
        | Some w => split_ws_from maxsplit (Some (snoc w c)) r
        | None =>
            match maxsplit with
            | Some 0 => [s]
            | _ => split_ws_from maxsplit (Some (String c EmptyString)) r
            end
        end
  end.

Definition split_ws (maxsplit : option nat) (s : string) : list string :=
  split_ws_from maxsplit None s.

(** [s.startswith(p)] *)
Definition startswith (s p : string) : bool := prefix p s.

(** [s.startswith(ps)] for a tuple [ps] *)
Definition startswith_any (s : string) (ps : list string) : bool :=
  existsb (startswith s) ps.

(** [s in ps] for a tuple of strings *)
Definition mem (s : string) (ps : list string) : bool :=
  existsb (String.eqb s) ps.

(** [p in s] for strings: [p] occurs in [s]. *)
Fixpoint contains (p s : string) : bool :=
  prefix p s ||
  match s with
  | EmptyString => false
  | String _ r => contains p r
  end.

(** [s.replace(a, b)] for one-character [a] and [b]. *)
Fixpoint replace_char (a b : ascii) (s : string) : string :=
  match s with
  | EmptyString => EmptyString
  | String c r =>
      String (if Ascii.eqb c a then b else c) (replace_char a b r)
  end.

Definition in_chars (c : ascii) (chars : string) : bool :=
  existsb (Ascii.eqb c) (list_ascii_of_string chars).

(** [s.strip(chars)] *)
Fixpoint lstrip_chars (chars s : string) : string :=
  match s with
  | EmptyString => EmptyString
  | String c r => if in_chars c chars then lstrip_chars chars r else s
  end.

Fixpoint rstrip_chars (chars s : string) : string :=
  match s with
  | EmptyString => EmptyString
  | String c r =>
      let r' := rstrip_chars chars r in
      if in_chars c chars && negb (nonempty r') then EmptyString
      else String c r'
  end.

Definition strip_chars (chars s : string) : string :=
  rstrip_chars chars (lstrip_chars chars s).

(** [s.split(sep)] for a one-character separator: never empty. *)
Fixpoint split_char_from (sep : ascii) (cur : string) (s : string)
    : list string :=
  match s with
  | EmptyString => [cur]
  | String c r =>
      if Ascii.eqb c sep then cur :: split_char_from sep EmptyString r
      else split_char_from sep (snoc cur c) r
  end.

Definition split_char (sep : ascii) (s : string) : list string :=
  split_char_from sep EmptyString s.

(** [s.split(sep, 1)] when [sep] occurs in [s]: the text before the first
    separator and the text after it. *)
Fixpoint split_once (sep : ascii) (s : string) : option (string * string) :=
  match s with
  | EmptyString => None
  | String c r =>
      if Ascii.eqb c sep then Some (EmptyString, r)
      else match split_once sep r with
           | Some (a, b) => Some (String c a, b)
           | None => None
           end
  end.

(** Every character of [s] satisfies [p]. *)
Fixpoint all_chars (p : ascii -> bool) (s : string) : bool :=
  match s with
  | EmptyString => true
  | String c r => p c && all_chars p r
  end.

Definition not_space (c : ascii) : bool := negb (is_space c).

(** The decimal text of an [int]: what [str(n)] returns when it returns
    ([int_str_fits] below tells when it does). *)
Definition str_of_int (n : Z) : string :=
  NilZero.string_of_int (Z.to_int n).

(** The interpreter's default limit on the conversion between integers
    and text: [str(n)] raises a [ValueError] when [n] has more than 4300
    decimal digits. *)
Definition int_str_fits (n : Z) : bool :=
  length (str_of_int (Z.abs n)) <=? 4300.

End PyStr.

Import PyStr.

(** ** Python values *)

(** The values that travel through [server.py]: what [json.loads]
    returns, what the database hands back, what a tool receives. *)
Inductive pyval : Type :=
| PNone
| PBool (b : bool)
| PInt (n : Z)
| PFloat (f : spec_float)
| PStr (s : string)
| PList (l : list pyval)
| PDict (d : list (string * pyval)).

(** A [dict] with string keys, in insertion order. *)
Definition dict := list (string * pyval).

(** Truth value of a Python value ([if x], [not x]). *)
Definition truthy (v : pyval) : bool :=
  match v with
  | PNone => false
  | PBool b => b
  | PInt n => negb (Z.eqb n 0)
  | PFloat f => match f with S754_zero _ => false | _ => true end
  | PStr s => nonempty s
  | PList l => match l with [] => false | _ :: _ => true end
  | PDict d => match d with [] => false | _ :: _ => true end
  end.

(** [d[k] = v]: an existing key keeps its place, a new one goes last. *)
Fixpoint dict_set (d : dict) (k : string) (v : pyval) : dict :=
  match d with
  | [] => [(k, v)]
  | (k', v') :: r =>
      if String.eqb k' k then (k', v) :: r else (k', v') :: dict_set r k v
  end.

Fixpoint dict_get (d : dict) (k : string) : option pyval :=
  match d with
  | [] => None
  | (k', v) :: r => if String.eqb k' k then Some v else dict_get r k
  end.

(** [d.values()] *)
Definition dict_values (d : dict) : list pyval := map snd d.

(** [dict(r)] for a database record [r], given as its (column, value)
    items in column order. *)
Definition dict_of_items (items : list (string * pyval)) : dict :=
  fold_left (fun d kv => dict_set d (fst kv) (snd kv)) items [].

(** The exceptions that can occur in the modelled code. *)
Inductive PyExn : Type :=
| BackendError (msg : string)      (* raised by the pool or the connection *)
| ValueError_int (literal : string) (* int(literal) *)
| IndexError                       (* [][-1] *)
| AttributeError                   (* x.values() on a value that is no dict *)
| TypeError                        (* f( **x ) on a value that is no mapping *)
| KeyError (key : string)          (* r[key] *)
| ValidationError (msg : string)   (* pydantic *)
| ValueError_str                   (* str(n) beyond the digit limit *)
| CancelledError.                  (* a BaseException that is no Exception *)

(** [isinstance(e, Exception)]: what [except Exception] catches. *)
Definition is_exception (e : PyExn) : bool :=
  match e with
  | CancelledError => false
  | _ => true
  end.

(** ** Utility functions (server.py, lines 35-63) *)

Definition newline : ascii := "010"%char.
Definition dquote : ascii := "034"%char.
Definition squote : ascii := "039"%char.

(** [redact], line 36 *)
Definition redact (sql : string) : string :=
  strip (replace_char newline " "%char sql).

Module Re.

(** [\s] of a [str] pattern *)
Definition space := is_space.

(** [\w] of a [str] pattern on a code point below 256: alphanumeric
    ([str.isalnum]) or the underscore. *)
Definition word (c : ascii) : bool :=
  let n := nat_of_ascii c in
  ((48 <=? n) && (n <=? 57)) || ((65 <=? n) && (n <=? 90))
  || ((97 <=? n) && (n <=? 122)) || (n =? 95)
  || (n =? 170) || (n =? 178) || (n =? 179) || (n =? 181)
  || ((185 <=? n) && (n <=? 186)) || ((188 <=? n) && (n <=? 190))
  || ((192 <=? n) && (n <=? 214)) || ((216 <=? n) && (n <=? 246))
  || (248 <=? n).

(** [[a-zA-Z_]] *)
Definition ident_start (c : ascii) : bool :=
  let n := nat_of_ascii c in
  ((65 <=? n) && (n <=? 90)) || ((97 <=? n) && (n <=? 122)) || (n =? 95).

(** [[\w.-]] *)
Definition ident_char (c : ascii) : bool :=
  word c || Ascii.eqb c "."%char || Ascii.eqb c "-"%char.

(** The longest prefix of [s] made of characters in [p], and the rest. *)
Fixpoint span (p : ascii -> bool) (s : string) : string * string :=
  match s with
  | EmptyString => (EmptyString, EmptyString)
  | String c r =>
      if p c then let (a, b) := span p r in (String c a, b)
      else (EmptyString, s)
  end.

(** A match, at the start of [s], of what follows the colon in the
    pattern of line 49: whitespace, a bare word (one character of
    [a-zA-Z_] then any number of [\w.-], group 1), whitespace, and a
    comma or closing brace (group 2).  The result is group 1, group 2
    and the number of characters matched.  Each starred class is
    disjoint from what follows it, so the greedy match is the only one. *)
Definition match_bareword (s : string) : option (string * ascii * nat) :=
  let (ws1, s1) := span space s in
  match s1 with
  | String c _ =>
      if ident_start c then
        let (word1, s2) := span ident_char s1 in
        let (ws2, s3) := span space s2 in
        match s3 with
        | String d _ =>
            if Ascii.eqb d ","%char || Ascii.eqb d "}"%char
            then Some (word1, d, length ws1 + length word1 + length ws2 + 1)
            else None
        | EmptyString => None
        end
      else None
  | EmptyString => None
  end.

(** The [re.sub] of lines 48-49: every match of a colon followed by
    [match_bareword] becomes a colon, a space, group 1 between double
    quotes and group 2.  [skip] counts the characters still covered by
    the last match. *)
Fixpoint sub_bareword_from (skip : nat) (s : string) : string :=
  match s with
  | EmptyString => EmptyString
  | String c r =>
      match skip with
      | S k => sub_bareword_from k r
      | O =>
          if Ascii.eqb c ":"%char then
            match match_bareword r with
            | Some (w, d, n) =>
                ": " ++ String dquote w ++ String dquote (String d EmptyString)
                ++ sub_bareword_from n r
            | None => String c (sub_bareword_from 0 r)
            end
          else String c (sub_bareword_from 0 r)
      end
  end.

Definition sub_bareword (s : string) : string := sub_bareword_from 0 s.

(** A match of whitespace then [close] at the start of [s]: its length. *)
Definition match_close (close : ascii) (s : string) : option nat :=
  let (ws, s1) := span space s in
  match s1 with
  | String d _ => if Ascii.eqb d close then Some (length ws + 1) else None
  | EmptyString => None
  end.

(** The [re.sub] of lines 50 and 51: a comma, whitespace and [close]
    become [close]. *)
Fixpoint sub_trailing_comma_from (close : ascii) (skip : nat) (s : string)
    : string :=
  match s with
  | EmptyString => EmptyString
  | String c r =>
      match skip with
      | S k => sub_trailing_comma_from close k r
      | O =>
          if Ascii.eqb c ","%char then
            match match_close close r with
            | Some n => String close (sub_trailing_comma_from close n r)
            | None => String c (sub_trailing_comma_from close 0 r)
            end
          else String c (sub_trailing_comma_from close 0 r)
      end
  end.

Definition sub_trailing_comma (close : ascii) (s : string) : string :=
  sub_trailing_comma_from close 0 s.

End Re.

(** The quote characters stripped from keys and values, line 61. *)
Definition quotes : string := String dquote (String squote EmptyString).

(** The loop of lines 58-62 over the comma-separated pairs. *)
Fixpoint fallback_pairs (pairs : list string) (result : dict) : dict :=
  match pairs with
  | [] => result
  | item :: rest =>
      match split_once ":"%char item with
      | Some (key, value) =>
          fallback_pairs rest
            (dict_set result (strip_chars quotes (strip key))
                      (PStr (strip_chars quotes (strip value))))
      | None => fallback_pairs rest result
      end
  end.

(** The manual fallback, lines 55-63. *)
Definition manual_parse (json_str : string) : dict :=
  let content := strip_chars "{}" (strip json_str) in
  if nonempty content then fallback_pairs (split_char ","%char content) []
  else [].

(** The textual repairs of lines 47-51. *)
Definition repair (json_str : string) : string :=
  let fixed := replace_char squote dquote json_str in
  let fixed := Re.sub_bareword fixed in
  let fixed := Re.sub_trailing_comma "}"%char fixed in
  Re.sub_trailing_comma "]"%char fixed.

(** ** Library code taken as a parameter *)

(** [TableIdent], lines 69-71 *)
Record TableIdent : Type := { schema : string; table : string }.

(** [json_loads s] is [Some v] when [json.loads(s)] returns [v] and
    [None] when it raises [json.JSONDecodeError].  These are the two
    outcomes the model has: a run in which the first [json.loads] of
    [parse_malformed_json] raises something else (a [RecursionError] on
    very deep nesting, a [ValueError] on an integer literal beyond the
    digit limit), which line 45 does not catch, is not described.  The
    theorems about text parameters and text payloads therefore name the
    value that the recovery returns in a hypothesis, and say nothing of
    the runs in which it does not return.  [TableIdent_new d] is the
    pydantic constructor [TableIdent( **d )] on a dict: the validated
    model, or the text of the [ValidationError]. *)
Record PyLib : Type := {
  json_loads : string -> option pyval;
  TableIdent_new : dict -> string + TableIdent
}.

Section WithLib.

Variable L : PyLib.

(** [parse_malformed_json], lines 39-63.  The argument is any Python
    value: the guard of line 41 sends everything that is not a non-empty
    string to the empty dict. *)
Definition parse_malformed_json (json_str : pyval) : pyval :=
  match json_str with
  | PStr s =>
      if negb (nonempty s) then PDict []
      else
        match json_loads L s with
        | Some v => v
        | None =>
            match json_loads L (repair s) with
            | Some v => v
            | None => PDict (manual_parse s)
            end
        end
  | _ => PDict []
  end.

End WithLib.

(** ** Statement classifier (lines 74-80) *)

Definition READ_ONLY_PREFIXES : list string :=
  ["select"; "show"; "explain"; "with"].

Definition ALLOWED_SCHEMAS : list string := ["public"].

(** [head] of line 79.  The index [0] is taken only when [sql.strip()]
    is non-empty, where the split has a first element
    ([head_index_defined]). *)
Definition head_of (sql : string) : string :=
  if nonempty (strip sql)
  then lower (hd EmptyString (split_ws (Some 1) (lstrip sql)))
  else EmptyString.

Definition is_read_only (sql : string) : bool :=
  let head := head_of sql in
  startswith_any head READ_ONLY_PREFIXES || mem head READ_ONLY_PREFIXES.

(** [first_token sql tok]: [tok] is the first whitespace-delimited word
    of [sql], that is, [sql] is whitespace, then [tok], which is not
    empty and holds no whitespace, then nothing or whitespace and more. *)
Definition first_token (sql tok : string) : Prop :=
  exists ws rest,
    sql = ws ++ tok ++ rest
    /\ all_chars is_space ws = true
    /\ all_chars not_space tok = true
    /\ tok <> EmptyString
    /\ (rest = EmptyString
        \/ exists c r, rest = String c r /\ is_space c = true).

(** [isinstance(v, dict)] *)
Definition is_dict (v : pyval) : bool :=
  match v with PDict _ => true | _ => false end.

(** ** Query executor (lines 143-172) *)

Inductive Role : Type := Read | Write.

Definition role_is_read (role : Role) : bool :=
  match role with Read => true | Write => false end.

(** The guard of line 155, negated: the request goes on to the pool. *)
Definition admits (sql : string) (role : Role) : bool :=
  negb (role_is_read role && negb (is_read_only sql)).

(** The text of [limit] inside the f-string of line 159, when the
    f-string can be built. *)
Definition format_limit (limit : option Z) : string :=
  match limit with
  | None => "None"
  | Some n => str_of_int n
  end.

(** Lines 158-159: the statement that reaches the connection, when the
    f-string can be built. *)
Definition bound (sql : string) (limit : option Z) : string :=
  if is_read_only sql && negb (contains "limit" (lower sql))
  then "SELECT * FROM (" ++ sql ++ ") as _sub LIMIT " ++ format_limit limit
  else sql.

(** The f-string of line 159 can be built for [limit]: [None] is
    written "None", an integer only within the digit limit. *)
Definition limit_renders (limit : option Z) : bool :=
  match limit with
  | None => true
  | Some n => int_str_fits n
  end.

(** [{limit}] in the f-string of line 159: the text, or the
    [ValueError] of the conversion. *)
Definition render_limit (limit : option Z) : PyExn + string :=
  if limit_renders limit then inr (format_limit limit) else inl ValueError_str.

(** Lines 158-159 as they run: the f-string is evaluated only for a
    read-only statement without "limit" in its lower-cased text, and
    then it may raise. *)
Definition bound_stmt (sql : string) (limit : option Z) : PyExn + string :=
  if is_read_only sql && negb (contains "limit" (lower sql))
  then match render_limit limit with
       | inl e => inl e
       | inr text =>
           inr ("SELECT * FROM (" ++ sql ++ ") as _sub LIMIT " ++ text)
       end
  else inr sql.

(** [int(s)] in base 10: surrounding whitespace, an optional sign, then
    digits, where single underscores may separate digits.  More than
    4300 digits are refused (the interpreter's default limit for the
    conversion of strings to integers). *)
Definition digit_of (c : ascii) : option Z :=
  let n := nat_of_ascii c in
  if (48 <=? n) && (n <=? 57) then Some (Z.of_nat (n - 48)) else None.

Fixpoint int_digits (acc : Z) (count : nat) (after_digit : bool) (s : string)
    : option Z :=
  match s with
  | EmptyString =>
      if after_digit && (count <=? 4300) then Some acc else None
  | String c r =>
      match digit_of c with
      | Some d => int_digits (10 * acc + d)%Z (S count) true r
      | None =>
          if Ascii.eqb c "_"%char && after_digit
          then int_digits acc count false r
          else None
      end
  end.

Definition py_int (s : string) : option Z :=
  match strip s with
  | String "+"%char r => int_digits 0 0 false r
  | String "-"%char r => option_map Z.opp (int_digits 0 0 false r)
  | t => int_digits 0 0 false t
  end.

(** [result.split()[-1]] when the split is not empty. *)
Definition last_word (result : string) : option string :=
  hd_error (rev (split_ws None result)).

(** Line 169: [int(result.split()[-1])]. *)
Definition affected_of (result : string) : PyExn + Z :=
  match last_word result with
  | None => inl IndexError
  | Some tok =>
      match py_int tok with
      | Some n => inr n
      | None => inl (ValueError_int tok)
      end
  end.

(** [*params.values() if params else []], lines 165 and 168. *)
Definition call_args (params : pyval) : PyExn + list pyval :=
  if truthy params then
    match params with
    | PDict d => inr (dict_values d)
    | _ => inl AttributeError
    end
  else inr [].

(** The text of an error field: a literal of the source, or [str(e)] of
    the exception caught. *)
Inductive error_text : Type :=
| Lit (s : string)
| StrOf (e : PyExn).

(** The dicts the tools return. *)
Inductive response : Type :=
| QueryResult (rows : list dict) (count : nat) (sql : string)
| ExecResult (affected : Z) (sql : string)
| ErrorResult (error : error_text) (sql : option string)
| TableResult (columns : list dict) (primary_key : list pyval).

(** A database record: its (column, value) items. *)
Definition record := list (string * pyval).

(** What the program asks of the pool and the connection. *)
Inductive event : Type :=
| EvAcquire
| EvFetch (sql : string) (args : list pyval)
| EvExecute (sql : string) (args : list pyval).

(** The database seen from the program: a state [W] and, for each call,
    the next state and either the exception raised or the answer. *)
Record Backend (W : Type) : Type := {
  pool_acquire : W -> W * option PyExn;
  conn_fetch : string -> list pyval -> W -> W * (PyExn + list record);
  conn_execute : string -> list pyval -> W -> W * (PyExn + string)
}.

Arguments pool_acquire {W}.
Arguments conn_fetch {W}.
Arguments conn_execute {W}.

Inductive outcome (A : Type) : Type :=
| Return (a : A)
| Raise (e : PyExn).

Arguments Return {A}.
Arguments Raise {A}.

(** Computations over the database state and the trace of calls. *)
Definition M (W A : Type) : Type :=
  W * list event -> (W * list event) * outcome A.

Definition ret {W A} (a : A) : M W A := fun st => (st, Return a).

Definition raise {W A} (e : PyExn) : M W A := fun st => (st, Raise e).

Definition bind {W A B} (m : M W A) (k : A -> M W B) : M W B :=
  fun st =>
    match m st with
    | (st', Return a) => k a st'
    | (st', Raise e) => (st', Raise e)
    end.

Notation "x <- m ;; k" := (bind m (fun x => k))
  (at level 61, m at next level, right associativity).

(** [try: m except <those e with h e = Some _>: h e] *)
Definition try_except {W A} (m : M W A) (h : PyExn -> option (M W A))
    : M W A :=
  fun st =>
    match m st with
    | (st', Return a) => (st', Return a)
    | (st', Raise e) =>
        match h e with
        | Some k => k st'
        | None => (st', Raise e)
        end
    end.

Definition lift {W A} (r : PyExn + A) : M W A :=
  match r with
  | inl e => raise e
  | inr a => ret a
  end.

Section WithBackend.

Variable L : PyLib.
Variable W : Type.
Variable B : Backend W.

(** [get_pool()] and [pool.acquire()] *)
Definition acquire : M W unit :=
  fun st =>
    let (w, t) := st in
    let (w', r) := pool_acquire B w in
    ((w', t ++ [EvAcquire])%list,
     match r with None => Return tt | Some e => Raise e end).

(** [conn.fetch(sql, *args)] *)
Definition fetch (sql : string) (args : list pyval) : M W (list record) :=
  fun st =>
    let (w, t) := st in
    let (w', r) := conn_fetch B sql args w in
    ((w', t ++ [EvFetch sql args])%list,
     match r with inl e => Raise e | inr rows => Return rows end).

(** [conn.execute(sql, *args)] *)
Definition execute (sql : string) (args : list pyval) : M W string :=
  fun st =>
    let (w, t) := st in
    let (w', r) := conn_execute B sql args w in
    ((w', t ++ [EvExecute sql args])%list,
     match r with inl e => Raise e | inr status => Return status end).

(** Lines 150-153. *)
Definition recover_params (params : pyval) : pyval :=
  match params with
  | PStr _ => parse_malformed_json L params
  | PNone => PDict []
  | _ => params
  end.

(** [query], lines 144-172.  The rewriting of lines 158-159 comes after
    the gate and before the pool, outside the [try]; the handler of line
    171 catches what is an [Exception]. *)
Definition query (sql : string) (params : pyval) (role : Role)
    (limit : option Z) : M W response :=
  let params := recover_params params in
  if role_is_read role && negb (is_read_only sql) then
    ret (ErrorResult (Lit "Write operation not allowed in read role") None)
  else
    sql <- lift (bound_stmt sql limit) ;;
    _ <- acquire ;;
    try_except
      (if is_read_only sql then
         args <- lift (call_args params) ;;
         rows <- fetch sql args ;;
         ret (QueryResult (map dict_of_items rows) (List.length rows)
                         (redact sql))
       else
         args <- lift (call_args params) ;;
         result <- execute sql args ;;
         affected <- lift (affected_of result) ;;
         ret (ExecResult affected (redact sql)))
      (fun e =>
         if is_exception e
         then Some (ret (ErrorResult (StrOf e) (Some (redact sql))))
         else None).

(** ** Table descriptor (lines 96-140) *)

Inductive payload_t : Type :=
| PayloadIdent (t : TableIdent)
| PayloadStr (s : string).

(** The catalog statements of lines 113-118 and 123-131. *)
Definition columns_sql : string := "
                SELECT column_name, data_type, is_nullable
                FROM information_schema.columns
                WHERE table_schema=$1 AND table_name=$2
                ORDER BY ordinal_position
                ".

Definition primary_key_sql : string := "
                SELECT kcu.column_name
                FROM information_schema.table_constraints tc
                JOIN information_schema.key_column_usage kcu
                  ON tc.constraint_name=kcu.constraint_name
                 AND tc.table_schema=kcu.table_schema
                WHERE tc.constraint_type='PRIMARY KEY'
                  AND tc.table_schema=$1 AND tc.table_name=$2
                ".

(** [[r["column_name"] for r in pks]], line 137. *)
Fixpoint column_names (pks : list record) : PyExn + list pyval :=
  match pks with
  | [] => inr []
  | r :: rest =>
      match dict_get r "column_name" with
      | None => inl (KeyError "column_name")
      | Some v =>
          match column_names rest with
          | inl e => inl e
          | inr vs => inr (v :: vs)
          end
      end
  end.

(** Lines 107-138, once [table_ident] is known. *)
Definition describe_ident (table_ident : TableIdent) : M W response :=
  if negb (mem (schema table_ident) ALLOWED_SCHEMAS) then
    ret (ErrorResult
           (Lit ("Schema '" ++ schema table_ident ++ "' not allowed.")) None)
  else
    _ <- acquire ;;
    cols <- fetch columns_sql
              [PStr (schema table_ident); PStr (table table_ident)] ;;
    pks <- fetch primary_key_sql
             [PStr (schema table_ident); PStr (table table_ident)] ;;
    names <- lift (column_names pks) ;;
    ret (TableResult (map dict_of_items cols) names).

(** [TableIdent( **payload_dict )], line 103. *)
Definition make_ident (payload_dict : pyval) : M W TableIdent :=
  match payload_dict with
  | PDict d =>
      match TableIdent_new L d with
      | inl msg => raise (ValidationError msg)
      | inr t => ret t
      end
  | _ => raise TypeError
  end.

(** [describe_table], lines 97-140. *)
Definition describe_table (payload : payload_t) : M W response :=
  try_except
    (match payload with
     | PayloadStr s =>
         let payload_dict := parse_malformed_json L (PStr s) in
         if negb (truthy payload_dict) then
           ret (ErrorResult (Lit "Could not parse JSON payload") None)
         else
           table_ident <- make_ident payload_dict ;;
           describe_ident table_ident
     | PayloadIdent t => describe_ident t
     end)
    (fun e =>
       match e with
       | ValidationError msg =>
           Some (ret (ErrorResult (Lit ("Invalid payload format: " ++ msg))
                                  None))
       | _ => None
       end).

(** A call of a tool from a database state, with an empty trace. *)
Definition run {A} (m : M W A) (w : W) : (W * list event) * outcome A :=
  m (w, []).

End WithBackend.

(** ** Concrete collaborators

    Instances of [PyLib] and [Backend] on which the model runs: a
    decoder for the fragment of JSON made of objects, arrays, strings
    without escapes, integers and the three literals, the validation of
    [TableIdent] (both fields are strings, [table] is required, [schema]
    defaults to "public", other keys are ignored), and a database that
    logs the statements it receives. *)

Module Basic.

Definition json_space (c : ascii) : bool :=
  let n := nat_of_ascii c in
  (n =? 32) || (n =? 9) || (n =? 10) || (n =? 13).

Fixpoint skip_ws (s : string) : string :=
  match s with
  | String c r => if json_space c then skip_ws r else s
  | EmptyString => EmptyString
  end.

(** The characters of a string literal up to its closing quote. *)
Fixpoint string_body (s : string) : option (string * string) :=
  match s with
  | EmptyString => None
  | String c r =>
      if Ascii.eqb c dquote then Some (EmptyString, r)
      else if Ascii.eqb c "\"%char || (nat_of_ascii c <? 32) then None
      else match string_body r with
           | Some (a, b) => Some (String c a, b)
           | None => None
           end
  end.

Fixpoint digits (acc : Z) (s : string) : Z * string :=
  match s with
  | String c r =>
      match digit_of c with
      | Some d => digits (10 * acc + d)%Z r
      | None => (acc, s)
      end
  | EmptyString => (acc, EmptyString)
  end.

(** An integer without sign: no leading zero, no fraction, no exponent. *)
Definition natural (s : string) : option (Z * string) :=
  match s with
  | String c r =>
      match digit_of c with
      | Some d =>
          let (n, rest) := if Z.eqb d 0 then (0%Z, r) else digits d r in
          match rest with
          | String c' _ =>
              if match digit_of c' with Some _ => true | None => false end
                 || Ascii.eqb c' "."%char || Ascii.eqb c' "e"%char
                 || Ascii.eqb c' "E"%char
              then None else Some (n, rest)
          | EmptyString => Some (n, rest)
          end
      | None => None
      end
  | EmptyString => None
  end.

Definition literal (word : string) (v : pyval) (s : string)
    : option (pyval * string) :=
  if prefix word s
  then Some (v, substring (length word) (length s - length word) s)
  else None.

Fixpoint value (fuel : nat) (s : string) : option (pyval * string) :=
  match fuel with
  | O => None
  | S f =>
      match skip_ws s with
      | String "{"%char r =>
          match skip_ws r with
          | String "}"%char r' => Some (PDict [], r')
          | r' => members f r' []
          end
      | String "["%char r =>
          match skip_ws r with
          | String "]"%char r' => Some (PList [], r')
          | r' => elements f r' []
          end
      | String "034"%char r =>
          match string_body r with
          | Some (a, b) => Some (PStr a, b)
          | None => None
          end
      | String "-"%char r =>
          match natural r with
          | Some (n, b) => Some (PInt (- n), b)
          | None => None
          end
      | String "t"%char _ as t => literal "true" (PBool true) t
      | String "f"%char _ as t => literal "false" (PBool false) t
      | String "n"%char _ as t => literal "null" PNone t
      | t =>
          match natural t with
          | Some (n, b) => Some (PInt n, b)
          | None => None
          end
      end
  end
with members (fuel : nat) (s : string) (acc : dict)
    : option (pyval * string) :=
  match fuel with
  | O => None
  | S f =>
      match skip_ws s with
      | String "034"%char r =>
          match string_body r with
          | Some (key, r1) =>
              match skip_ws r1 with
              | String ":"%char r2 =>
                  match value f r2 with
                  | Some (v, r3) =>
                      match skip_ws r3 with
                      | String ","%char r4 => members f r4 (dict_set acc key v)
                      | String "}"%char r4 =>
                          Some (PDict (dict_set acc key v), r4)
                      | _ => None
                      end
                  | None => None
                  end
              | _ => None
              end
          | None => None
          end
      | _ => None
      end
  end
with elements (fuel : nat) (s : string) (acc : list pyval)
    : option (pyval * string) :=
  match fuel with
  | O => None
  | S f =>
      match value f s with
      | Some (v, r1) =>
          match skip_ws r1 with
          | String ","%char r2 => elements f r2 (acc ++ [v])%list
          | String "]"%char r2 => Some (PList (acc ++ [v])%list, r2)
          | _ => None
          end
      | None => None
      end
  end.

Definition json_loads (s : string) : option pyval :=
  match value (S (length s)) s with
  | Some (v, rest) =>
      match skip_ws rest with
      | EmptyString => Some v
      | String _ _ => None
      end
  | None => None
  end.

Definition TableIdent_new (d : dict) : string + TableIdent :=
  match dict_get d "table" with
  | Some (PStr t) =>
      match dict_get d "schema" with
      | Some (PStr s) => inr {| schema := s; table := t |}
      | None => inr {| schema := "public"; table := t |}
      | Some _ => inl "schema: Input should be a valid string"
      end
  | Some _ => inl "table: Input should be a valid string"
  | None => inl "table: Field required"
  end.

Definition lib : PyLib :=
  Build_PyLib json_loads TableIdent_new.

(** A database that answers every fetch with [rows] and every execute
    with [status], and keeps the statements it has run. *)
Definition db (rows : list record) (status : string)
    : Backend (list string) :=
  {| pool_acquire := fun w => (w, None);
     conn_fetch := fun sql _ w => ((w ++ [sql])%list, inr rows);
     conn_execute := fun sql _ w => ((w ++ [sql])%list, inr status) |}.

(** [s] between double quotes. *)
Definition quoted (s : string) : string :=
  String dquote (s ++ String dquote EmptyString).

(** The JSON text of an object with the keys [schema] and [table]. *)
Definition ident_json (schema table : string) : string :=
  "{" ++ quoted "schema" ++ ": " ++ quoted schema ++ ", "
  ++ quoted "table" ++ ": " ++ quoted table ++ "}".

(** A database that holds one row with the single value 1 and answers
    every execute with the status of a [CREATE TABLE]. *)
Definition one_row : list record := [[("?column?", PInt 1)]].

Definition sample_db : Backend (list string) := db one_row "CREATE TABLE".

(** [query(sql, role=role, limit=limit)] and [describe_table(payload)]
    on that database, before any statement has run. *)
Definition sample_query (sql : string) (role : Role) (limit : option Z)
    : (list string * list event) * outcome response :=
  run (list string) (query lib (list string) sample_db sql PNone role limit)
      [].

Definition sample_describe (payload : payload_t)
    : (list string * list event) * outcome response :=
  run (list string) (describe_table lib (list string) sample_db payload) [].

End Basic.

(** ** Pool and health check (lines 22-29 and 86-93) *)

Section Pool.

Variable W : Type.
Variable P : Type.

(** [asyncpg.create_pool(dsn=PG_DSN, min_size=1, max_size=10)]: the next
    state of the world and the pool, or the exception raised. *)
Variable create_pool : W -> W * (PyExn + P).

(** The global [pool] of line 22, the world, and the number of calls of
    [create_pool] made so far. *)
Record pool_state : Type := {
  pool : option P;
  pool_world : W;
  created : nat
}.

(** [get_pool], lines 25-29. *)
Definition get_pool (st : pool_state) : pool_state * outcome P :=
  match pool st with
  | Some p => (st, Return p)
  | None =>
      let (w', r) := create_pool (pool_world st) in
      match r with
      | inr p =>
          ({| pool := Some p; pool_world := w'; created := S (created st) |},
           Return p)
      | inl e =>
          ({| pool := None; pool_world := w'; created := S (created st) |},
           Raise e)
      end
  end.

(** [n] calls of [get_pool] in a row, with their outcomes. *)
Fixpoint get_pool_times (n : nat) (st : pool_state)
    : pool_state * list (outcome P) :=
  match n with
  | O => (st, [])
  | S k =>
      let (st1, r) := get_pool st in
      let (st2, rs) := get_pool_times k st1 in
      (st2, r :: rs)
  end.

End Pool.

Arguments pool {W P}.
Arguments pool_world {W P}.
Arguments created {W P}.

Section Ping.

Variable W : Type.
Variable B : Backend W.

(** [ping], lines 87-93.  [elapsed] is the text of the elapsed time in
    milliseconds, which the code reads off the clock. *)
Definition ping (elapsed : string) : M W string :=
  _ <- acquire W B ;;
  _ <- execute W B "SELECT 1" [] ;;
  ret ("ok (" ++ elapsed ++ " ms)").

End Ping.

(** ** Auxiliary notions for the properties *)

(** The number written by the digits [d], read after the digits that
    gave [acc]. *)
Fixpoint uint_val (d : Decimal.uint) (acc : Z) : Z :=
  match d with
  | Decimal.Nil => acc
  | Decimal.D0 l => uint_val l (10 * acc + 0)
  | Decimal.D1 l => uint_val l (10 * acc + 1)
  | Decimal.D2 l => uint_val l (10 * acc + 2)
  | Decimal.D3 l => uint_val l (10 * acc + 3)
  | Decimal.D4 l => uint_val l (10 * acc + 4)
  | Decimal.D5 l => uint_val l (10 * acc + 5)
  | Decimal.D6 l => uint_val l (10 * acc + 6)
  | Decimal.D7 l => uint_val l (10 * acc + 7)
  | Decimal.D8 l => uint_val l (10 * acc + 8)
  | Decimal.D9 l => uint_val l (10 * acc + 9)
  end%Z.

(** What [query] and [describe_table] may ask of the database under the
    read role: a connection, and fetches of read-only statements. *)
Definition read_only_event (ev : event) : Prop :=
  match ev with
  | EvAcquire => True
  | EvFetch sql _ => is_read_only sql = true
  | EvExecute _ _ => False
  end.

(** The calls [describe_table] may make for the identifier [t]: a
    connection and the two catalog statements, with the schema and the
    table as their arguments. *)
Definition catalog_event (ev : event) : Prop :=
  ev = EvAcquire
  \/ (exists t, ev = EvFetch columns_sql [PStr (schema t); PStr (table t)])
  \/ (exists t,
        ev = EvFetch primary_key_sql [PStr (schema t); PStr (table t)]).

(** The integer written 1 followed by 4300 zeros: 4301 digits. *)
Definition huge_digits : Decimal.uint :=
  Decimal.D1 (Nat.iter 4300 Decimal.D0 Decimal.Nil).

Definition huge_int : Z := Z.of_uint huge_digits.

(** A character other than the colon. *)
Definition not_colon (c : ascii) : bool := negb (Ascii.eqb c ":").

(** A statement with a line break and blanks around it. *)
Definition untidy_sql : string :=
  "  select *" ++ String newline "from t  ".

(** [d] holds strings only. *)
Definition all_str_values (d : dict) : Prop :=
  Forall (fun kv => exists s, snd kv = PStr s) d.

(** Collaborators that fail, and a pool factory that numbers the
    pools it creates. *)
Module Faulty.

Definition no_pool : Backend (list string) :=
  {| pool_acquire := fun w => (w, Some (BackendError "connection refused"));
     conn_fetch := fun sql _ w => ((w ++ [sql])%list, inr []);
     conn_execute := fun sql _ w => ((w ++ [sql])%list, inr "") |}.

Definition broken_conn : Backend (list string) :=
  {| pool_acquire := fun w => (w, None);
     conn_fetch :=
       fun sql _ w => ((w ++ [sql])%list, inl (BackendError "syntax error"));
     conn_execute :=
       fun sql _ w => ((w ++ [sql])%list, inl (BackendError "syntax error"))
  |}.

Definition numbered_pool (w : nat) : nat * (PyExn + nat) := (S w, inr w).

End Faulty.

(** * Properties *)

(** ** Strings *)

Section StringFacts.

Lemma append_empty_r (s : string) : s ++ EmptyString = s.
Proof. induction s as [|c s IH]; simpl; [|rewrite IH]; reflexivity. Qed.

Lemma append_assoc (a b c : string) : (a ++ b) ++ c = a ++ (b ++ c).
Proof. induction a as [|x a IH]; simpl; [|rewrite IH]; reflexivity. Qed.

Lemma snoc_append (w : string) (c : ascii) (t : string) :
  snoc w c ++ t = w ++ String c t.
Proof. unfold snoc. rewrite append_assoc. reflexivity. Qed.

Lemma prefix_refl (p : string) : prefix p p = true.
Proof.
  induction p as [|c p IH]; simpl; [reflexivity|].
  destruct (ascii_dec c c) as [_|n]; [exact IH | now elim n].
Qed.

Lemma prefix_append (p s : string) :
  prefix p s = true <-> exists r, s = p ++ r.
Proof.
  revert s. induction p as [|c p IH]; intros s.
  - split; [intros _; now exists s | intros _; now destruct s].
  - destruct s as [|d s]; simpl.
    + split; [discriminate | intros [r H]; discriminate].
    + destruct (ascii_dec c d) as [->|n].
      * rewrite IH. split; intros [r H]; exists r.
        -- now rewrite H.
        -- now injection H.
      * split; [discriminate|]. intros [r H]. injection H as -> _. now elim n.
Qed.

(** [contains p s] holds exactly when [p] occurs in [s]. *)
Lemma contains_occurs (p s : string) :
  contains p s = true <-> exists a b, s = a ++ p ++ b.
Proof.
  induction s as [|c s IH].
  - cbn [contains]. rewrite orb_false_r, prefix_append. split.
    + intros [r H]. now exists EmptyString, r.
    + intros [a [b H]]. destruct a; [now exists b|discriminate].
  - cbn [contains]. rewrite orb_true_iff, IH, prefix_append. split.
    + intros [[r H]|[a [b H]]].
      * now exists EmptyString, r.
      * exists (String c a), b. simpl. now rewrite H.
    + intros [a [b H]]. destruct a as [|x a].
      * left. now exists b.
      * right. injection H as _ H. now exists a, b.
Qed.

Lemma lstrip_spaces (ws s : string) :
  all_chars is_space ws = true -> lstrip (ws ++ s) = lstrip s.
Proof.
  induction ws as [|c ws IH]; simpl; [reflexivity|].
  intros H. apply andb_true_iff in H as [Hc Hws].
  rewrite Hc. now apply IH.
Qed.

Lemma lstrip_blank (s : string) :
  all_chars is_space s = true -> lstrip s = EmptyString.
Proof.
  intros H. rewrite <- (append_empty_r s). now rewrite lstrip_spaces.
Qed.

Lemma lstrip_word (c : ascii) (s : string) :
  is_space c = false -> lstrip (String c s) = String c s.
Proof. intros H. simpl. now rewrite H. Qed.

Lemma rstrip_word (c : ascii) (s : string) :
  is_space c = false -> nonempty (rstrip (String c s)) = true.
Proof. intros H. simpl. now rewrite H. Qed.

(** The word being read ends where [tok] ends. *)
Lemma split_ws_from_word (m : option nat) (tok rest w : string) :
  all_chars not_space tok = true ->
  (rest = EmptyString \/ exists c r, rest = String c r /\ is_space c = true) ->
  hd EmptyString (split_ws_from m (Some w) (tok ++ rest)) = w ++ tok.
Proof.
  revert w. induction tok as [|c tok IH]; intros w Htok Hrest.
  - rewrite append_empty_r. destruct Hrest as [->|[c [r [-> Hc]]]]; simpl.
    + reflexivity.
    + now rewrite Hc.
  - simpl in Htok. apply andb_true_iff in Htok as [Hc Htok].
    unfold not_space in Hc. apply negb_true_iff in Hc.
    simpl. rewrite Hc, IH by assumption. apply snoc_append.
Qed.

End StringFacts.

(** ** Statement classifier *)

Section Classifier.

(** X29.  The index of line 79 is always defined where it is evaluated:
    when the stripped statement is not empty, the split of the statement
    without its leading whitespace has a first element, so that
    [is_read_only] raises no [IndexError]. *)
Lemma head_index_defined (sql : string) :
  nonempty (strip sql) = true ->
  split_ws (Some 1) (lstrip sql) <> [].
Proof.
  unfold strip, split_ws. destruct (lstrip sql) as [|c s] eqn:E.
  - discriminate.
  - intros _. assert (Hc : is_space c = false).
    { clear -E. induction sql as [|d sql IH]; simpl in E; [discriminate|].
      destruct (is_space d) eqn:Hd; [now apply IH|].
      injection E as -> _. exact Hd. }
    simpl. rewrite Hc.
    generalize (String c EmptyString). clear E Hc.
    induction s as [|d s IH]; intros w; simpl.
    + discriminate.
    + destruct (is_space d); [discriminate | apply IH].
Qed.

Lemma head_of_first_token (sql tok : string) :
  first_token sql tok -> head_of sql = lower tok.
Proof.
  intros [ws [rest [-> [Hws [Htok [Hne Hrest]]]]]].
  destruct tok as [|c tok]; [now elim Hne|]. clear Hne.
  pose proof Htok as Hc. simpl in Hc. apply andb_true_iff in Hc as [Hc Htok'].
  unfold not_space in Hc. apply negb_true_iff in Hc.
  unfold head_of, strip. rewrite lstrip_spaces by assumption.
  change (String c tok ++ rest) with (String c (tok ++ rest)).
  rewrite lstrip_word, rstrip_word by assumption.
  unfold split_ws. simpl. rewrite Hc.
  now rewrite split_ws_from_word.
Qed.

Lemma head_of_blank (sql : string) :
  all_chars is_space sql = true -> head_of sql = EmptyString.
Proof.
  intros H. unfold head_of, strip. now rewrite lstrip_blank.
Qed.

(** Membership in the tuple is subsumed by the prefix test of line 80. *)
Lemma mem_startswith_any (h : string) (ps : list string) :
  mem h ps = true -> startswith_any h ps = true.
Proof.
  unfold mem, startswith_any. induction ps as [|p ps IH]; simpl.
  - discriminate.
  - intros H. apply orb_true_iff in H as [H|H].
    + apply String.eqb_eq in H as ->. unfold startswith.
      now rewrite prefix_refl.
    + rewrite IH by assumption. apply orb_true_r.
Qed.

Lemma is_read_only_startswith (sql : string) :
  is_read_only sql = startswith_any (head_of sql) READ_ONLY_PREFIXES.
Proof.
  unfold is_read_only.
  destruct (startswith_any (head_of sql) READ_ONLY_PREFIXES) eqn:E.
  - reflexivity.
  - rewrite orb_false_l.
    destruct (mem (head_of sql) READ_ONLY_PREFIXES) eqn:M.
    + apply mem_startswith_any in M. congruence.
    + reflexivity.
Qed.

Lemma is_read_only_blank (sql : string) :
  all_chars is_space sql = true -> is_read_only sql = false.
Proof.
  intros H. rewrite is_read_only_startswith, head_of_blank by assumption.
  reflexivity.
Qed.

(** C1, as amended.  When [tok] is the first whitespace-delimited word
    of [sql], [is_read_only sql] is true exactly when the lower-cased
    [tok] starts with one of select, show, explain, with (the word need
    not be equal to one of them); a statement that is empty or made of
    whitespace only is classified as not read-only. *)
Theorem is_read_only_prefix_spec (sql tok : string) :
  (first_token sql tok ->
   (is_read_only sql = true <->
    exists p, In p READ_ONLY_PREFIXES /\ prefix p (lower tok) = true))
  /\ (all_chars is_space sql = true -> is_read_only sql = false).
Proof.
  split; [|apply is_read_only_blank].
  intros H. rewrite is_read_only_startswith, (head_of_first_token _ _ H).
  unfold startswith_any. rewrite existsb_exists. unfold startswith.
  reflexivity.
Qed.

End Classifier.

Section ClassifierExamples.

(** Every statement is blank or has a first word, so the two cases of
    the classifier's specification cover all inputs. *)
Lemma word_then_rest (s : string) :
  exists tok rest,
    s = tok ++ rest /\ all_chars not_space tok = true
    /\ (rest = EmptyString
        \/ exists c r, rest = String c r /\ is_space c = true).
Proof.
  induction s as [|c s [tok [rest [E [Htok Hrest]]]]].
  - exists EmptyString, EmptyString. auto.
  - destruct (is_space c) eqn:Hc.
    + exists EmptyString, (String c s). repeat split; eauto.
    + exists (String c tok), rest. simpl. unfold not_space at 1.
      rewrite Hc, Htok, <- E. auto.
Qed.

Lemma blank_or_first_token (sql : string) :
  all_chars is_space sql = true \/ exists tok, first_token sql tok.
Proof.
  induction sql as [|c sql IH].
  - now left.
  - destruct (is_space c) eqn:Hc.
    + destruct IH as [IH|[tok [ws [rest [E H]]]]].
      * left. simpl. now rewrite Hc.
      * right. exists tok, (String c ws), rest. simpl. rewrite Hc, <- E.
        tauto.
    + right. destruct (word_then_rest sql) as [tok [rest [E [Htok Hrest]]]].
      exists (String c tok), EmptyString, rest. simpl.
      unfold not_space at 1. rewrite Hc, Htok, <- E.
      repeat split; auto. discriminate.
Qed.

Lemma is_read_only_prefix_spec_witness :
  (is_read_only "  SELECT 1" = true <->
   exists p, In p READ_ONLY_PREFIXES /\ prefix p (lower "SELECT") = true)
  /\ is_read_only "   " = false.
Proof.
  split.
  - apply (proj1 (is_read_only_prefix_spec "  SELECT 1" "SELECT")).
    exists "  ", " 1". repeat split; try reflexivity.
    + discriminate.
    + right. exists " "%char, "1". split; reflexivity.
  - apply (proj2 (is_read_only_prefix_spec "   " "SELECT")). reflexivity.
Defined.

(** The statement of C1 fails on the word "selectx": it is none of the
    four keywords, and the statement is classified read-only. *)
Lemma is_read_only_exact_word_counterexample :
  ~ (forall sql tok,
       first_token sql tok ->
       (is_read_only sql = true <-> In (lower tok) READ_ONLY_PREFIXES)).
Proof.
  intros H.
  assert (F : first_token "selectx 1" "selectx").
  { exists EmptyString, " 1". repeat split; try reflexivity.
    - discriminate.
    - right. exists " "%char, "1". split; reflexivity. }
  apply H in F. destruct F as [F _].
  specialize (F eq_refl). simpl in F.
  repeat (destruct F as [F|F]; [discriminate|]). exact F.
Qed.

(** The examples of the specification. *)
Example is_read_only_examples :
  map is_read_only
    ["select 1"; "  SELECT 1"; "with x as (select 1) select * from x";
     "EXPLAIN select 1"; "insert into t values (1)"; ""]
  = [true; true; true; true; false; false].
Proof. reflexivity. Qed.

End ClassifierExamples.

(** ** Result bounder *)

Section Bounder.

Lemma first_token_wrapped (body : string) :
  first_token ("SELECT * FROM (" ++ body) "SELECT".
Proof.
  exists EmptyString, (" * FROM (" ++ body). repeat split; try reflexivity.
  - discriminate.
  - right. exists " "%char, ("* FROM (" ++ body). split; reflexivity.
Qed.

(** The rewriting of line 159 yields a read-only statement, so the test
    of line 164 agrees with the one of line 158. *)
Lemma is_read_only_bound (sql : string) (limit : option Z) :
  is_read_only (bound sql limit) = is_read_only sql.
Proof.
  unfold bound. destruct (is_read_only sql) eqn:R.
  - destruct (contains "limit" (lower sql)); cbn [andb negb]; [exact R|].
    rewrite is_read_only_startswith.
    rewrite (head_of_first_token _ _ (first_token_wrapped _)).
    reflexivity.
  - exact R.
Qed.

Lemma bound_wraps (sql : string) (limit : option Z) :
  is_read_only sql = true ->
  contains "limit" (lower sql) = false ->
  bound sql limit
  = "SELECT * FROM (" ++ sql ++ ") as _sub LIMIT " ++ format_limit limit.
Proof. intros R C. unfold bound. now rewrite R, C. Qed.

Lemma bound_keeps_limited (sql : string) (limit : option Z) :
  contains "limit" (lower sql) = true -> bound sql limit = sql.
Proof. intros C. unfold bound. rewrite C, andb_false_r. reflexivity. Qed.

Lemma bound_keeps_mutating (sql : string) (limit : option Z) :
  is_read_only sql = false -> bound sql limit = sql.
Proof. intros R. unfold bound. now rewrite R. Qed.

End Bounder.

(** ** Query executor *)

Section QueryRuns.

Variable L : PyLib.
Variable W : Type.
Variable B : Backend W.

(** Lines 158-159 as they run against the statement they build. *)
Lemma bound_stmt_renders sql limit :
  limit_renders limit = true -> bound_stmt sql limit = inr (bound sql limit).
Proof.
  intros H. unfold bound_stmt, bound, render_limit. rewrite H.
  now destruct (is_read_only sql && negb (contains "limit" (lower sql))).
Qed.

Lemma bound_stmt_inr sql limit stmt :
  bound_stmt sql limit = inr stmt -> stmt = bound sql limit.
Proof.
  unfold bound_stmt, bound, render_limit.
  destruct (is_read_only sql && negb (contains "limit" (lower sql)));
    [destruct (limit_renders limit)|]; intros H; now inversion H.
Qed.

Lemma bound_stmt_mutating sql limit :
  is_read_only sql = false -> bound_stmt sql limit = inr sql.
Proof. intros R. unfold bound_stmt. now rewrite R. Qed.

Lemma bound_stmt_limited sql limit :
  contains "limit" (lower sql) = true -> bound_stmt sql limit = inr sql.
Proof. intros C. unfold bound_stmt. now rewrite C, andb_false_r. Qed.

Lemma bound_stmt_raises sql limit :
  is_read_only sql = true ->
  contains "limit" (lower sql) = false ->
  limit_renders limit = false ->
  bound_stmt sql limit = inl ValueError_str.
Proof.
  intros R C H. unfold bound_stmt, render_limit. now rewrite R, C, H.
Qed.

Lemma affected_of_exception status e :
  affected_of status = inl e -> is_exception e = true.
Proof.
  unfold affected_of. destruct (last_word status) as [tok|].
  - destruct (py_int tok); intros H; inversion H. reflexivity.
  - intros H. inversion H. reflexivity.
Qed.

(** A rejected request returns at line 156: nothing is asked of the pool
    or of the connection, and the database state is the initial one. *)
Lemma query_rejected sql params role limit w :
  admits sql role = false ->
  run W (query L W B sql params role limit) w
  = ((w, []),
     Return (ErrorResult (Lit "Write operation not allowed in read role")
                         None)).
Proof.
  unfold admits, run, query. intros H. apply negb_false_iff in H.
  now rewrite H.
Qed.

(** A request that passes the gate with a limit that cannot be written
    raises at line 159, before the pool is asked. *)
Lemma query_unwritable_limit sql params role limit w :
  is_read_only sql = true ->
  contains "limit" (lower sql) = false ->
  limit_renders limit = false ->
  run W (query L W B sql params role limit) w
  = ((w, []), Raise ValueError_str).
Proof.
  intros R C H. unfold run, query.
  rewrite R, andb_false_r, (bound_stmt_raises _ _ R C H). reflexivity.
Qed.

(** The outcome of lines 164-172 for a read-only statement, once line
    159 has given the statement [stmt], a connection is held and the
    arguments are built: one fetch of [stmt]. *)
Lemma query_read_run sql params role limit stmt w w1 w2 args r :
  is_read_only sql = true ->
  bound_stmt sql limit = inr stmt ->
  pool_acquire B w = (w1, None) ->
  call_args (recover_params L params) = inr args ->
  conn_fetch B stmt args w1 = (w2, r) ->
  run W (query L W B sql params role limit) w
  = ((w2, [EvAcquire; EvFetch stmt args]),
     match r with
     | inl e =>
         if is_exception e
         then Return (ErrorResult (StrOf e) (Some (redact stmt)))
         else Raise e
     | inr rows =>
         Return (QueryResult (map dict_of_items rows) (List.length rows)
                             (redact stmt))
     end).
Proof.
  intros R S A P F. unfold run, query.
  rewrite R, andb_false_r, S.
  assert (RS : is_read_only stmt = true)
    by (rewrite (bound_stmt_inr _ _ _ S), is_read_only_bound; exact R).
  unfold bind, acquire, try_except, fetch, lift, ret.
  rewrite A, RS, P. simpl. rewrite F.
  destruct r as [e|rows]; [|reflexivity]. now destruct (is_exception e).
Qed.

(** The same for a statement that is not read-only, under the write
    role: one execute of the statement as submitted. *)
Lemma query_write_run sql params limit w w1 w2 args r :
  is_read_only sql = false ->
  pool_acquire B w = (w1, None) ->
  call_args (recover_params L params) = inr args ->
  conn_execute B sql args w1 = (w2, r) ->
  run W (query L W B sql params Write limit) w
  = ((w2, [EvAcquire; EvExecute sql args]),
     match r with
     | inl e =>
         if is_exception e
         then Return (ErrorResult (StrOf e) (Some (redact sql)))
         else Raise e
     | inr status =>
         Return
           match affected_of status with
           | inl e => ErrorResult (StrOf e) (Some (redact sql))
           | inr n => ExecResult n (redact sql)
           end
     end).
Proof.
  intros R A P F. unfold run, query. simpl.
  rewrite (bound_stmt_mutating _ limit R).
  unfold bind, acquire, try_except, execute, lift, ret, raise.
  rewrite A, R, P. simpl. rewrite F.
  destruct r as [e|status]; [now destruct (is_exception e)|].
  destruct (affected_of status) as [e|n] eqn:E; [|reflexivity].
  now rewrite (affected_of_exception _ _ E).
Qed.

Lemma query_read_trace sql params role limit stmt w w1 args :
  is_read_only sql = true ->
  bound_stmt sql limit = inr stmt ->
  pool_acquire B w = (w1, None) ->
  call_args (recover_params L params) = inr args ->
  snd (fst (run W (query L W B sql params role limit) w))
  = [EvAcquire; EvFetch stmt args].
Proof.
  intros R S A P.
  destruct (conn_fetch B stmt args w1) as [w2 r] eqn:F.
  now rewrite (query_read_run _ _ _ _ _ _ _ _ _ _ R S A P F).
Qed.

Lemma query_write_trace sql params limit w w1 args :
  is_read_only sql = false ->
  pool_acquire B w = (w1, None) ->
  call_args (recover_params L params) = inr args ->
  snd (fst (run W (query L W B sql params Write limit) w))
  = [EvAcquire; EvExecute sql args].
Proof.
  intros R A P.
  destruct (conn_execute B sql args w1) as [w2 r] eqn:F.
  now rewrite (query_write_run _ _ _ _ _ _ _ _ R A P F).
Qed.

(** A request that passes the gate and for which line 159 gives a
    statement asks for a connection first. *)
Lemma query_goes_to_pool sql params role limit stmt w :
  admits sql role = true ->
  bound_stmt sql limit = inr stmt ->
  exists w' t r,
    run W (query L W B sql params role limit) w = ((w', EvAcquire :: t), r).
Proof.
  unfold admits, run, query. intros H S. apply negb_true_iff in H.
  rewrite H, S.
  unfold bind, acquire, try_except, fetch, execute, lift, ret, raise.
  destruct (pool_acquire B w) as [w1 [e|]]; simpl; [now eauto|].
  destruct (is_read_only stmt);
    destruct (call_args (recover_params L params)) as [e|args]; simpl.
  - destruct (is_exception e); eauto.
  - destruct (conn_fetch B stmt args w1) as [w2 [e|rows]]; simpl;
      [destruct (is_exception e)|]; eauto.
  - destruct (is_exception e); eauto.
  - destruct (conn_execute B stmt args w1) as [w2 [e|status]]; simpl;
      [destruct (is_exception e); now eauto|].
    destruct (affected_of status) as [e|n] eqn:E; simpl; [|now eauto].
    rewrite (affected_of_exception _ _ E). eauto.
Qed.

(** C2, as amended.  The write role admits every statement and the read
    role admits exactly the statements that [is_read_only] accepts.
    When the recovery of [params] (lines 150-153, which run before the
    gate) returns, a rejected request returns the error result whose
    message is "Write operation not allowed in read role" (capital W)
    and no [sql] field, without asking for a connection and without
    touching the database; an admitted request for which line 159 gives
    a statement goes on to acquire a connection. *)
Theorem policy_gate sql params role limit w recovered :
  recover_params L params = recovered ->
  admits sql Write = true
  /\ admits sql Read = is_read_only sql
  /\ (admits sql role = false ->
      run W (query L W B sql params role limit) w
      = ((w, []),
         Return (ErrorResult (Lit "Write operation not allowed in read role")
                             None)))
  /\ (admits sql role = true ->
      forall stmt,
        bound_stmt sql limit = inr stmt ->
        exists w' t r,
          run W (query L W B sql params role limit) w
          = ((w', EvAcquire :: t), r)).
Proof.
  intros _. split; [reflexivity|]. split.
  - unfold admits. simpl. apply negb_involutive.
  - split; [apply query_rejected|].
    intros G stmt S. now apply (query_goes_to_pool _ _ _ _ stmt).
Qed.

(** C3, as amended.  For an integer limit within the interpreter's
    limit of 4300 digits, a read-only statement whose lower-cased text
    does not contain "limit" is rewritten to [SELECT * FROM (<sql>) as
    _sub LIMIT <L>], with these capitals: "select * from t" with limit
    50 becomes "SELECT * FROM (select * from t) as _sub LIMIT 50".  A
    statement whose lower-cased text contains "limit" and a statement
    that is not read-only are left as they are, whatever the limit.
    The statement that lines 158-159 give is the one sent to the
    connection. *)
Theorem bound_spec sql (limit : Z) :
  (int_str_fits limit = true ->
   is_read_only sql = true ->
   contains "limit" (lower sql) = false ->
   bound_stmt sql (Some limit)
   = inr ("SELECT * FROM (" ++ sql ++ ") as _sub LIMIT " ++ str_of_int limit))
  /\ (contains "limit" (lower sql) = true ->
      bound_stmt sql (Some limit) = inr sql)
  /\ (is_read_only sql = false -> bound_stmt sql (Some limit) = inr sql)
  /\ bound_stmt "select * from t" (Some 50%Z)
     = inr "SELECT * FROM (select * from t) as _sub LIMIT 50"
  /\ bound_stmt "select * from t limit 10" (Some 50%Z)
     = inr "select * from t limit 10"
  /\ (forall params role w w1 args stmt,
        bound_stmt sql (Some limit) = inr stmt ->
        is_read_only sql = true ->
        pool_acquire B w = (w1, None) ->
        call_args (recover_params L params) = inr args ->
        snd (fst (run W (query L W B sql params role (Some limit)) w))
        = [EvAcquire; EvFetch stmt args])
  /\ (forall params w w1 args,
        is_read_only sql = false ->
        pool_acquire B w = (w1, None) ->
        call_args (recover_params L params) = inr args ->
        snd (fst (run W (query L W B sql params Write (Some limit)) w))
        = [EvAcquire; EvExecute sql args]).
Proof.
  split.
  { intros F R C. rewrite (bound_stmt_renders sql (Some limit) F).
    now rewrite (bound_wraps sql (Some limit) R C). }
  split; [apply bound_stmt_limited|].
  split; [apply bound_stmt_mutating|].
  split; [reflexivity|]. split; [reflexivity|]. split.
  - intros params role w w1 args stmt S R A P.
    now apply (query_read_trace _ _ _ _ stmt w w1).
  - intros params w w1 args. apply query_write_trace.
Qed.

(** C4, as amended.  [query("select 1", role="read")], with the default
    [params] and [limit], fetches the bounded statement; when the
    database answers with one row, the result holds that row, count 1
    and, as [sql], the statement as rewritten by the bounder, "SELECT *
    FROM (select 1) as _sub LIMIT 2000". *)
Theorem query_select_1 w w1 w2 (row : record) :
  pool_acquire B w = (w1, None) ->
  conn_fetch B "SELECT * FROM (select 1) as _sub LIMIT 2000" [] w1
  = (w2, inr [row]) ->
  run W (query L W B "select 1" PNone Read (Some 2000%Z)) w
  = ((w2,
      [EvAcquire; EvFetch "SELECT * FROM (select 1) as _sub LIMIT 2000" []]),
     Return (QueryResult [dict_of_items row] 1
               "SELECT * FROM (select 1) as _sub LIMIT 2000")).
Proof.
  intros A F.
  now rewrite (query_read_run "select 1" PNone Read (Some 2000%Z)
                 "SELECT * FROM (select 1) as _sub LIMIT 2000"
                 w w1 w2 [] (inr [row]) eq_refl eq_refl A eq_refl F).
Qed.

(** C9.  A statement that is not read-only, admitted under the write
    role and executed by the database with a status whose last word is
    not an integer literal (or that has no word at all), yields an error
    result with the fields [error] and [sql], although the statement was
    executed: the trace holds the execute call and the database state is
    the one after it. *)
Theorem query_status_without_count sql params limit w w1 w2 args status :
  is_read_only sql = false ->
  pool_acquire B w = (w1, None) ->
  call_args (recover_params L params) = inr args ->
  conn_execute B sql args w1 = (w2, inr status) ->
  (forall tok, last_word status = Some tok -> py_int tok = None) ->
  admits sql Write = true
  /\ exists e,
      run W (query L W B sql params Write limit) w
      = ((w2, [EvAcquire; EvExecute sql args]),
         Return (ErrorResult (StrOf e) (Some (redact sql)))).
Proof.
  intros R A P F H. split; [reflexivity|].
  rewrite (query_write_run _ _ _ _ _ _ _ _ R A P F).
  unfold affected_of. destruct (last_word status) as [tok|].
  - rewrite (H tok eq_refl). eauto.
  - eauto.
Qed.

(** C10, as amended.  The limit is not validated: for a read-only
    statement whose lower-cased text does not contain "limit", the text
    of the limit is put after LIMIT in the statement sent to the
    connection, for an absent limit - the statement then ends in "LIMIT
    None" - and for every integer of at most 4300 digits, zero and the
    negative ones included.  An integer of more than 4300 digits cannot
    be written: line 159 raises a [ValueError], no connection is asked
    for and nothing is sent. *)
Theorem query_limit_unvalidated sql params role w w1 args :
  is_read_only sql = true ->
  contains "limit" (lower sql) = false ->
  pool_acquire B w = (w1, None) ->
  call_args (recover_params L params) = inr args ->
  (forall n : Z,
     int_str_fits n = true ->
     snd (fst (run W (query L W B sql params role (Some n)) w))
     = [EvAcquire;
        EvFetch ("SELECT * FROM (" ++ sql ++ ") as _sub LIMIT " ++ str_of_int n)
                args])
  /\ snd (fst (run W (query L W B sql params role None) w))
     = [EvAcquire;
        EvFetch ("SELECT * FROM (" ++ sql ++ ") as _sub LIMIT None") args]
  /\ (forall n : Z,
        int_str_fits n = false ->
        run W (query L W B sql params role (Some n)) w
        = ((w, []), Raise ValueError_str))
  /\ int_str_fits 0 = true /\ str_of_int 0 = "0"
  /\ int_str_fits (-5) = true /\ str_of_int (-5) = "-5".
Proof.
  intros R C A P. split; [|split; [|split; [|repeat split]]].
  - intros n F.
    rewrite (query_read_trace sql params role (Some n) (bound sql (Some n))
               w w1 args R (bound_stmt_renders _ (Some n) F) A P).
    now rewrite bound_wraps.
  - rewrite (query_read_trace sql params role None (bound sql None)
               w w1 args R (bound_stmt_renders _ None eq_refl) A P).
    now rewrite bound_wraps.
  - intros n F. now apply query_unwritable_limit.
Qed.

End QueryRuns.

(** ** JSON recovery and table descriptor *)

Section Recovery.

Variable L : PyLib.

(** The guard of line 41: an empty string, [None] and every value that
    is not a string give the empty dict. *)
Lemma parse_malformed_json_guard (v : pyval) :
  match v with PStr s => s = EmptyString | _ => True end ->
  parse_malformed_json L v = PDict [].
Proof. destruct v; try reflexivity. now intros ->. Qed.

(** C8.  When the strict decoding of a non-empty string succeeds,
    [parse_malformed_json] returns its result; in particular on every
    string that is a valid JSON object. *)
Theorem parse_malformed_json_strict (s : string) (v : pyval) :
  s <> EmptyString ->
  json_loads L s = Some v ->
  parse_malformed_json L (PStr s) = v.
Proof.
  intros Hs Hv. unfold parse_malformed_json.
  destruct s; [now elim Hs|]. simpl. now rewrite Hv.
Qed.

Variable W : Type.
Variable B : Backend W.

Lemma describe_ident_rejected (t : TableIdent) (st : W * list event) :
  schema t <> "public" ->
  describe_ident W B t st
  = (st, Return (ErrorResult (Lit ("Schema '" ++ schema t ++ "' not allowed."))
                             None)).
Proof.
  intros H. unfold describe_ident, mem, ALLOWED_SCHEMAS. simpl.
  destruct (String.eqb_spec (schema t) "public"); [contradiction|reflexivity].
Qed.

(** C6, as amended.  When the schema of the identifier is not "public",
    [describe_table] returns the error result whose message is "Schema
    '<schema>' not allowed." (capital S) and no other field, and asks
    nothing of the pool or the connection.  This holds for a
    [TableIdent] payload and for a text payload from which a
    [TableIdent] is recovered and validated. *)
Theorem describe_table_schema_rejected (t : TableIdent) (w : W) :
  schema t <> "public" ->
  run W (describe_table L W B (PayloadIdent t)) w
  = ((w, []),
     Return (ErrorResult (Lit ("Schema '" ++ schema t ++ "' not allowed."))
                         None))
  /\ (forall s d,
        parse_malformed_json L (PStr s) = PDict d ->
        d <> [] ->
        TableIdent_new L d = inr t ->
        run W (describe_table L W B (PayloadStr s)) w
        = ((w, []),
           Return (ErrorResult
                     (Lit ("Schema '" ++ schema t ++ "' not allowed."))
                     None))).
Proof.
  intros H. split.
  - unfold run, describe_table, try_except.
    now rewrite describe_ident_rejected.
  - intros s d P D V. unfold run, describe_table, try_except.
    rewrite P. destruct d as [|kv d]; [now elim D|].
    unfold make_ident, bind, ret. simpl. rewrite V.
    now rewrite describe_ident_rejected.
Qed.

(** C7, as amended.  A text payload that JSON recovery reduces to the
    empty dict yields the error result whose message is "Could not parse
    JSON payload" (capital C): [describe_table] returns it, raises
    nothing, validates no identifier and asks nothing of the database. *)
Theorem describe_table_unparsed (s : string) (w : W) :
  parse_malformed_json L (PStr s) = PDict [] ->
  run W (describe_table L W B (PayloadStr s)) w
  = ((w, []), Return (ErrorResult (Lit "Could not parse JSON payload") None)).
Proof.
  intros P. unfold run, describe_table, try_except. now rewrite P.
Qed.

End Recovery.

(** ** The model on concrete requests *)

Section Concrete.

Import Basic.

(** C5.  [parse_malformed_json] returns whatever the strict decoding
    returns: on the text of a JSON array it returns a list, which is no
    mapping. *)
Theorem parse_malformed_json_returns_list :
  parse_malformed_json lib (PStr "[1]") = PList [PInt 1]
  /\ is_dict (parse_malformed_json lib (PStr "[1]")) = false.
Proof. split; reflexivity. Qed.

(** A list recovered from the payload makes line 103 of [describe_table]
    raise a [TypeError], which line 139 does not catch. *)
Example describe_table_list_payload :
  sample_describe (PayloadStr "[1]") = (([], []), Raise TypeError).
Proof. reflexivity. Qed.

(** A list recovered from [params] is caught at line 171, after the
    connection was acquired and before any statement is sent. *)
Example query_list_params :
  run _ (query lib _ sample_db "select 1" (PStr "[1]") Read (Some 2000%Z)) []
  = (([], [EvAcquire]),
     Return (ErrorResult (StrOf AttributeError)
               (Some "SELECT * FROM (select 1) as _sub LIMIT 2000"))).
Proof. reflexivity. Qed.

(** The examples of the specification for the recovery and the redactor. *)
Example parse_malformed_json_unquoted :
  parse_malformed_json lib (PStr "{schema: public, table: users}")
  = PDict [("schema", PStr "public"); ("table", PStr "users")]
  /\ parse_malformed_json lib (PStr (ident_json "public" "users"))
     = PDict [("schema", PStr "public"); ("table", PStr "users")].
Proof. split; reflexivity. Qed.

Example redact_example :
  redact ("select *" ++ String newline "from t") = "select * from t".
Proof. reflexivity. Qed.

Lemma parse_malformed_json_strict_witness :
  ident_json "public" "users" <> EmptyString
  /\ parse_malformed_json lib (PStr (ident_json "public" "users"))
     = PDict [("schema", PStr "public"); ("table", PStr "users")].
Proof.
  split; [discriminate|].
  apply (parse_malformed_json_strict lib (ident_json "public" "users")).
  - discriminate.
  - reflexivity.
Defined.

Lemma policy_gate_witness :
  run _ (query lib _ sample_db "delete from users" (PStr "{id: 7}") Read
           (Some 2000%Z)) []
  = (([], []),
     Return (ErrorResult (Lit "Write operation not allowed in read role")
                         None))
  /\ exists w' t r,
      sample_query "select 1" Read (Some 2000%Z) = ((w', EvAcquire :: t), r).
Proof.
  split.
  - apply (proj1 (proj2 (proj2
      (policy_gate lib _ sample_db "delete from users" (PStr "{id: 7}") Read
         (Some 2000%Z) [] (PDict [("id", PStr "7")]) eq_refl)))).
    reflexivity.
  - apply (proj2 (proj2 (proj2
      (policy_gate lib _ sample_db "select 1" PNone Read (Some 2000%Z) []
         (PDict []) eq_refl)))
      eq_refl "SELECT * FROM (select 1) as _sub LIMIT 2000").
    reflexivity.
Defined.

(** The message of the rejection is not the lower-case text of C2. *)
Lemma policy_message_counterexample :
  admits "delete from users" Read = false
  /\ sample_query "delete from users" Read (Some 2000%Z)
     <> (([], []),
         Return (ErrorResult (Lit "write operation not allowed in read role")
                             None)).
Proof. split; [reflexivity|]. intros H. vm_compute in H. discriminate H. Qed.

Lemma bound_spec_witness :
  bound_stmt "select * from t" (Some 50%Z)
  = inr ("SELECT * FROM (" ++ "select * from t" ++ ") as _sub LIMIT "
         ++ str_of_int 50)
  /\ bound_stmt "select id from rate_limits" (Some 50%Z)
     = inr "select id from rate_limits"
  /\ bound_stmt "delete from t" (Some 50%Z) = inr "delete from t"
  /\ snd (fst (sample_query "select * from t" Read (Some 50%Z)))
     = [EvAcquire;
        EvFetch "SELECT * FROM (select * from t) as _sub LIMIT 50" []]
  /\ snd (fst (sample_query "delete from t" Write (Some 50%Z)))
     = [EvAcquire; EvExecute "delete from t" []].
Proof.
  pose proof (bound_spec lib _ sample_db "select * from t" 50)
    as [Wrap [_ [_ [_ [_ [Fetched _]]]]]].
  pose proof (bound_spec lib _ sample_db "select id from rate_limits" 50)
    as [_ [Limited _]].
  pose proof (bound_spec lib _ sample_db "delete from t" 50)
    as [_ [_ [Mutating [_ [_ [_ Executed]]]]]].
  split; [|split; [|split; [|split]]].
  - apply Wrap; reflexivity.
  - apply Limited; reflexivity.
  - apply Mutating; reflexivity.
  - apply (Fetched PNone Read [] [] []); reflexivity.
  - apply (Executed PNone [] [] []); reflexivity.
Defined.

(** The bounded statement is not the string of C3: the code writes
    SELECT and FROM in capitals and [as] in lower case. *)
Lemma bound_text_counterexample :
  is_read_only "select * from t" = true
  /\ contains "limit" (lower "select * from t") = false
  /\ bound_stmt "select * from t" (Some 50%Z)
     <> inr "select * from (select * from t) as _sub LIMIT 50"
  /\ bound_stmt "select * from t" (Some 50%Z)
     <> inr "SELECT * FROM (select * from t) AS _sub LIMIT 50".
Proof.
  repeat split; try reflexivity; intros H; vm_compute in H; discriminate H.
Qed.

Lemma query_select_1_witness :
  sample_query "select 1" Read (Some 2000%Z)
  = ((["SELECT * FROM (select 1) as _sub LIMIT 2000"],
      [EvAcquire; EvFetch "SELECT * FROM (select 1) as _sub LIMIT 2000" []]),
     Return (QueryResult [[("?column?", PInt 1)]] 1
               "SELECT * FROM (select 1) as _sub LIMIT 2000")).
Proof.
  apply (query_select_1 lib _ sample_db [] [] _ [("?column?", PInt 1)]);
    reflexivity.
Defined.

(** The [sql] field of the result of [query("select 1", role="read")] is
    not the statement as submitted, whatever the rows. *)
Lemma query_select_1_sql_counterexample :
  ~ exists st rows count,
      sample_query "select 1" Read (Some 2000%Z)
      = (st, Return (QueryResult rows count "select 1")).
Proof.
  intros [st [rows [count H]]]. vm_compute in H. discriminate H.
Qed.

Lemma query_status_without_count_witness :
  admits "create table t (a int)" Write = true
  /\ exists e,
      sample_query "create table t (a int)" Write (Some 2000%Z)
      = ((["create table t (a int)"],
          [EvAcquire; EvExecute "create table t (a int)" []]),
         Return (ErrorResult (StrOf e) (Some "create table t (a int)"))).
Proof.
  apply (query_status_without_count lib _ sample_db "create table t (a int)"
           PNone (Some 2000%Z) [] [] _ [] "CREATE TABLE");
    try reflexivity.
  intros tok H. vm_compute in H. injection H as <-. reflexivity.
Defined.

(** The status of a [CREATE TABLE] gives [int("TABLE")], a [ValueError]. *)
Example query_create_table :
  sample_query "create table t (a int)" Write (Some 2000%Z)
  = ((["create table t (a int)"],
      [EvAcquire; EvExecute "create table t (a int)" []]),
     Return (ErrorResult (StrOf (ValueError_int "TABLE"))
               (Some "create table t (a int)"))).
Proof. reflexivity. Qed.

Lemma query_limit_unvalidated_witness :
  snd (fst (sample_query "select 1" Read (Some (-5)%Z)))
  = [EvAcquire; EvFetch "SELECT * FROM (select 1) as _sub LIMIT -5" []]
  /\ snd (fst (sample_query "select 1" Read None))
     = [EvAcquire; EvFetch "SELECT * FROM (select 1) as _sub LIMIT None" []].
Proof.
  destruct (query_limit_unvalidated lib _ sample_db "select 1"
              PNone Read [] [] [] eq_refl eq_refl eq_refl eq_refl)
    as [H1 [H2 _]].
  split; [exact (H1 (-5)%Z eq_refl) | exact H2].
Defined.

Lemma describe_table_schema_rejected_witness :
  sample_describe (PayloadIdent {| schema := "secret"; table := "t" |})
  = (([], []),
     Return (ErrorResult (Lit "Schema 'secret' not allowed.") None))
  /\ sample_describe (PayloadStr (ident_json "secret" "t"))
     = (([], []),
        Return (ErrorResult (Lit "Schema 'secret' not allowed.") None)).
Proof.
  assert (H : schema {| schema := "secret"; table := "t" |} <> "public")
    by discriminate.
  split.
  - apply (proj1 (describe_table_schema_rejected lib _ sample_db _ [] H)).
  - apply (proj2 (describe_table_schema_rejected lib _ sample_db _ [] H)
             (ident_json "secret" "t")
             [("schema", PStr "secret"); ("table", PStr "t")]).
    + reflexivity.
    + discriminate.
    + reflexivity.
Defined.

(** The message of the rejection is not the lower-case text of C6. *)
Lemma describe_table_schema_message_counterexample :
  mem "secret" ALLOWED_SCHEMAS = false
  /\ sample_describe (PayloadIdent {| schema := "secret"; table := "t" |})
     <> (([], []),
         Return (ErrorResult (Lit "schema 'secret' not allowed.") None)).
Proof. split; [reflexivity|]. intros H. vm_compute in H. discriminate H. Qed.

Lemma describe_table_unparsed_witness :
  sample_describe (PayloadStr "{}")
  = (([], []),
     Return (ErrorResult (Lit "Could not parse JSON payload") None)).
Proof.
  apply (describe_table_unparsed lib _ sample_db "{}" []). reflexivity.
Defined.

(** The message of the parse error is not the lower-case text of C7. *)
Lemma describe_table_unparsed_message_counterexample :
  parse_malformed_json lib (PStr "{}") = PDict []
  /\ sample_describe (PayloadStr "{}")
     <> (([], []),
         Return (ErrorResult (Lit "could not parse JSON payload") None)).
Proof. split; [reflexivity|]. intros H. vm_compute in H. discriminate H. Qed.

End Concrete.

(** * Further properties of the code *)

(** ** More on strings *)

Section MoreStrings.

Lemma is_space_lower_char (c : ascii) :
  is_space (lower_char c) = is_space c.
Proof. destruct c as [[] [] [] [] [] [] [] []]; reflexivity. Qed.

Lemma lower_char_idem (c : ascii) : lower_char (lower_char c) = lower_char c.
Proof. destruct c as [[] [] [] [] [] [] [] []]; reflexivity. Qed.

Lemma lower_idem (s : string) : lower (lower s) = lower s.
Proof.
  induction s as [|c s IH]; simpl; [reflexivity|].
  now rewrite lower_char_idem, IH.
Qed.

Lemma lower_append (a b : string) : lower (a ++ b) = lower a ++ lower b.
Proof. induction a as [|c a IH]; simpl; [|rewrite IH]; reflexivity. Qed.

Lemma lstrip_lower (s : string) : lstrip (lower s) = lower (lstrip s).
Proof.
  induction s as [|c s IH]; simpl; [reflexivity|].
  rewrite is_space_lower_char. now destruct (is_space c).
Qed.

Lemma all_chars_lower (p : ascii -> bool) (s : string) :
  (forall c, p (lower_char c) = p c) ->
  all_chars p (lower s) = all_chars p s.
Proof.
  intros H. induction s as [|c s IH]; simpl; [reflexivity|].
  now rewrite H, IH.
Qed.

Lemma all_chars_lstrip (p : ascii -> bool) (s : string) :
  all_chars p s = true -> all_chars p (lstrip s) = true.
Proof.
  induction s as [|c s IH]; simpl; [reflexivity|]. intros H.
  destruct (is_space c).
  - apply andb_true_iff in H as [_ H]. now apply IH.
  - exact H.
Qed.

Lemma all_chars_rstrip (p : ascii -> bool) (s : string) :
  all_chars p s = true -> all_chars p (rstrip s) = true.
Proof.
  induction s as [|c s IH]; simpl; [reflexivity|]. intros H.
  apply andb_true_iff in H as [Hc H].
  destruct (is_space c && negb (nonempty (rstrip s))); [reflexivity|].
  simpl. now rewrite Hc, IH.
Qed.

Lemma rstrip_idem (s : string) : rstrip (rstrip s) = rstrip s.
Proof.
  induction s as [|c s IH]; simpl; [reflexivity|].
  destruct (is_space c && negb (nonempty (rstrip s))) eqn:E;
    [reflexivity|].
  simpl. now rewrite IH, E.
Qed.

(** After [lstrip], the first character is no whitespace. *)
Lemma lstrip_head (s : string) (c : ascii) (r : string) :
  lstrip s = String c r -> is_space c = false.
Proof.
  induction s as [|d s IH]; simpl; [discriminate|].
  destruct (is_space d) eqn:Hd; [exact IH|].
  intros H. injection H as <- _. exact Hd.
Qed.

Lemma lstrip_strip (s : string) : lstrip (strip s) = strip s.
Proof.
  unfold strip. destruct (lstrip s) as [|c r] eqn:E; [reflexivity|].
  apply lstrip_head in E. simpl. rewrite E. simpl. now rewrite E.
Qed.

Lemma strip_idem (s : string) : strip (strip s) = strip s.
Proof.
  unfold strip at 1. rewrite lstrip_strip. unfold strip. apply rstrip_idem.
Qed.

Lemma rstrip_length (s : string) : length (rstrip s) <= length s.
Proof.
  induction s as [|c s IH]; simpl; [lia|].
  destruct (is_space c && negb (nonempty (rstrip s))); simpl; lia.
Qed.

Lemma rstrip_snoc_space (s : string) (c : ascii) :
  is_space c = true -> rstrip (s ++ String c EmptyString) = rstrip s.
Proof.
  intros Hc. induction s as [|d s IH]; simpl.
  - now rewrite Hc.
  - now rewrite IH.
Qed.

Lemma append_length (a b : string) : length (a ++ b) = length a + length b.
Proof. induction a as [|c a IH]; simpl; [|rewrite IH]; reflexivity. Qed.

(** After [rstrip], the last character is no whitespace. *)
Lemma rstrip_last (s t : string) (c : ascii) :
  rstrip s = t ++ String c EmptyString -> is_space c = false.
Proof.
  intros H. destruct (is_space c) eqn:Hc; [|reflexivity].
  pose proof (rstrip_idem s) as I. rewrite H in I.
  rewrite rstrip_snoc_space in I by assumption.
  pose proof (rstrip_length t) as Len. rewrite I, append_length in Len.
  simpl in Len. lia.
Qed.

Lemma rstrip_words (s : string) :
  all_chars not_space s = true -> rstrip s = s.
Proof.
  induction s as [|c s IH]; simpl; [reflexivity|]. intros H.
  apply andb_true_iff in H as [Hc H]. unfold not_space in Hc.
  apply negb_true_iff in Hc. now rewrite Hc, IH.
Qed.

Lemma replace_char_absent (a b : ascii) (s : string) :
  all_chars (fun c => negb (Ascii.eqb c a)) s = true ->
  replace_char a b s = s.
Proof.
  induction s as [|c s IH]; simpl; [reflexivity|]. intros H.
  apply andb_true_iff in H as [Hc H]. apply negb_true_iff in Hc.
  now rewrite Hc, IH.
Qed.

Lemma replace_char_removes (a b : ascii) (s : string) :
  Ascii.eqb b a = false ->
  all_chars (fun c => negb (Ascii.eqb c a)) (replace_char a b s) = true.
Proof.
  intros Hb. induction s as [|c s IH]; simpl; [reflexivity|].
  rewrite IH, andb_true_r. destruct (Ascii.eqb c a) eqn:E.
  - now rewrite Hb.
  - now rewrite E.
Qed.

(** A prefix without whitespace lies within the first word. *)
Lemma prefix_word (p a b : string) :
  all_chars not_space p = true ->
  (b = EmptyString \/ exists c r, b = String c r /\ is_space c = true) ->
  prefix p (a ++ b) = prefix p a.
Proof.
  intros Hp Hb. revert a. induction p as [|c p IH]; intros a.
  - now destruct a, b.
  - simpl in Hp. apply andb_true_iff in Hp as [Hc Hp].
    unfold not_space in Hc. apply negb_true_iff in Hc.
    destruct a as [|x a]; simpl.
    + destruct Hb as [->|[d [r [-> Hd]]]]; [reflexivity|].
      simpl. destruct (ascii_dec c d) as [->|_]; [congruence|reflexivity].
    + destruct (ascii_dec c x); [now apply IH|reflexivity].
Qed.

Lemma existsb_ext_in {A} (f g : A -> bool) (l : list A) :
  (forall x, In x l -> f x = g x) -> existsb f l = existsb g l.
Proof.
  induction l as [|x l IH]; simpl; [reflexivity|]. intros H.
  rewrite (H x) by now left. rewrite IH; [reflexivity|].
  intros y Hy. apply H. now right.
Qed.

End MoreStrings.

(** ** Redactor *)

Section Redactor.

(** X1.  [redact] is idempotent: a statement that was redacted is left
    as it is by a second redaction. *)
Theorem redact_idempotent (sql : string) : redact (redact sql) = redact sql.
Proof.
  unfold redact at 1.
  rewrite replace_char_absent.
  - unfold redact. apply strip_idem.
  - unfold redact, strip.
    apply all_chars_rstrip, all_chars_lstrip, replace_char_removes.
    reflexivity.
Qed.

(** X2.  The text that [redact] returns holds no newline, and neither
    starts nor ends with a whitespace character. *)
Theorem redact_clean (sql : string) :
  all_chars (fun c => negb (Ascii.eqb c newline)) (redact sql) = true
  /\ (forall c r, redact sql = String c r -> is_space c = false)
  /\ (forall t c, redact sql = t ++ String c EmptyString ->
                  is_space c = false).
Proof.
  split; [|split].
  - unfold redact, strip.
    apply all_chars_rstrip, all_chars_lstrip, replace_char_removes.
    reflexivity.
  - intros c r H. apply (lstrip_head (redact sql) c r).
    unfold redact in *. now rewrite lstrip_strip.
  - intros t c H. unfold redact, strip in H. now apply rstrip_last in H.
Qed.

End Redactor.

(** ** Statement classifier, continued *)

Section ClassifierMore.

Lemma read_only_prefixes_words (p : string) :
  In p READ_ONLY_PREFIXES -> all_chars not_space p = true.
Proof.
  intros H. repeat (destruct H as [<-|H]; [reflexivity|]). destruct H.
Qed.

(** The split of line 79 does not matter: the classifier looks at the
    text that follows the leading whitespace. *)
Lemma is_read_only_lstrip (sql : string) :
  is_read_only sql
  = startswith_any (lower (lstrip sql)) READ_ONLY_PREFIXES.
Proof.
  destruct (blank_or_first_token sql) as [Hb|[tok Ht]].
  - rewrite is_read_only_blank, lstrip_blank by assumption. reflexivity.
  - rewrite is_read_only_startswith, (head_of_first_token _ _ Ht).
    destruct Ht as [ws [rest [-> [Hws [Htok [Hne Hrest]]]]]].
    rewrite lstrip_spaces by assumption.
    destruct tok as [|c tok]; [now elim Hne|].
    pose proof Htok as Hc. simpl in Hc.
    apply andb_true_iff in Hc as [Hc _].
    unfold not_space in Hc. apply negb_true_iff in Hc.
    change (String c tok ++ rest) with (String c (tok ++ rest)).
    rewrite lstrip_word by assumption.
    change (String c (tok ++ rest)) with (String c tok ++ rest).
    rewrite lower_append. unfold startswith_any. apply existsb_ext_in.
    intros p Hp. unfold startswith. symmetry. apply prefix_word.
    + now apply read_only_prefixes_words.
    + destruct Hrest as [->|[d [r [-> Hd]]]]; [now left|].
      right. exists (lower_char d), (lower r). split; [reflexivity|].
      now rewrite is_space_lower_char.
Qed.

(** X3.  A statement is classified read-only exactly when its text,
    after the leading whitespace and in lower case, starts with select,
    show, explain or with; what follows the keyword, even without a
    separating blank, plays no part. *)
Theorem is_read_only_leading_keyword (sql : string) :
  is_read_only sql = true <->
  exists p rest,
    In p READ_ONLY_PREFIXES /\ lower (lstrip sql) = p ++ rest.
Proof.
  rewrite is_read_only_lstrip. unfold startswith_any.
  rewrite existsb_exists. unfold startswith. split.
  - intros [p [Hp H]]. apply prefix_append in H as [rest H]. eauto.
  - intros [p [rest [Hp H]]]. exists p. split; [exact Hp|].
    apply prefix_append. eauto.
Qed.

(** X4.  The classifier ignores the case of the statement and its
    leading whitespace. *)
Theorem is_read_only_case_and_indent (ws sql : string) :
  all_chars is_space ws = true ->
  is_read_only (ws ++ lower sql) = is_read_only sql.
Proof.
  intros Hws. rewrite !is_read_only_lstrip, lstrip_spaces by assumption.
  now rewrite lstrip_lower, lower_idem.
Qed.

Lemma keyword_head (kw : string) :
  In (lower kw) READ_ONLY_PREFIXES ->
  exists c r, kw = String c r /\ is_space c = false.
Proof.
  intros H. destruct kw as [|c r].
  - simpl in H. repeat (destruct H as [H|H]; [discriminate|]). destruct H.
  - exists c, r. split; [reflexivity|].
    rewrite <- is_space_lower_char. simpl in H.
    repeat (destruct H as [H|H];
            [injection H as <- _; reflexivity|]).
    destruct H.
Qed.

(** X5.  Whatever follows it, a statement that begins, after optional
    whitespace, with one of the four keywords in any case is read-only
    and is admitted under the read role: so is a CTE that ends in a
    write. *)
Theorem keyword_start_is_read_only (ws kw rest : string) :
  all_chars is_space ws = true ->
  In (lower kw) READ_ONLY_PREFIXES ->
  is_read_only (ws ++ kw ++ rest) = true
  /\ admits (ws ++ kw ++ rest) Read = true.
Proof.
  intros Hws Hkw.
  assert (R : is_read_only (ws ++ kw ++ rest) = true).
  { rewrite is_read_only_lstrip, lstrip_spaces by assumption.
    destruct (keyword_head kw Hkw) as [c [r [E Hc]]].
    assert (S : lstrip (kw ++ rest) = kw ++ rest).
    { rewrite E. now apply (lstrip_word c (r ++ rest)). }
    rewrite S, lower_append. unfold startswith_any.
    apply existsb_exists. exists (lower kw). split; [exact Hkw|].
    apply prefix_append. eauto. }
  split; [exact R|]. unfold admits. now rewrite R.
Qed.

End ClassifierMore.

(** ** Result bounder, continued *)

Section BounderMore.

Lemma wrapped_contains_limit (sql tail : string) :
  contains "limit"
    (lower ("SELECT * FROM (" ++ sql ++ ") as _sub LIMIT " ++ tail)) = true.
Proof.
  apply contains_occurs.
  exists (lower "SELECT * FROM (" ++ lower sql ++ ") as _sub "),
         (" " ++ lower tail).
  rewrite !lower_append, !append_assoc. reflexivity.
Qed.

(** X6.  Bounding twice is bounding once: the rewritten statement holds
    the word LIMIT, so a second pass, with whatever limit, leaves it as
    it is. *)
Theorem bound_idempotent (sql : string) (limit limit' : option Z) :
  bound (bound sql limit) limit' = bound sql limit.
Proof.
  destruct (is_read_only sql && negb (contains "limit" (lower sql))) eqn:E.
  - assert (B : bound sql limit
                = "SELECT * FROM (" ++ sql ++ ") as _sub LIMIT "
                  ++ format_limit limit)
      by (unfold bound; now rewrite E).
    rewrite B. apply bound_keeps_limited, wrapped_contains_limit.
  - assert (B : forall l, bound sql l = sql)
      by (intros l; unfold bound; now rewrite E).
    now rewrite !B.
Qed.

(** X7.  The test for an existing limit is a substring test that
    ignores case: a statement in which the letters l-i-m-i-t occur
    anywhere, in any case - inside a column name, a string or a
    comment - is never bounded. *)
Theorem bound_skips_any_limit (before word after : string)
    (limit : option Z) :
  lower word = "limit" ->
  bound (before ++ word ++ after) limit = before ++ word ++ after.
Proof.
  intros H. apply bound_keeps_limited, contains_occurs.
  exists (lower before), (lower after).
  now rewrite !lower_append, H.
Qed.

(** X8.  After the bounder, every read-only statement holds the word
    limit in some case. *)
Theorem bound_read_only_has_limit (sql : string) (limit : option Z) :
  is_read_only sql = true ->
  contains "limit" (lower (bound sql limit)) = true.
Proof.
  intros R. unfold bound. rewrite R.
  destruct (contains "limit" (lower sql)) eqn:C; simpl.
  - exact C.
  - apply wrapped_contains_limit.
Qed.

End BounderMore.

(** ** Query executor, continued *)

(** The paths through [query]: the classification of the statement, the
    role, the statement of lines 158-159, the pool, the arguments, the
    call and the parsing of the status. *)
Ltac query_paths L B sql params role limit w :=
  unfold run, query;
  let R := fresh "R" in
  let S := fresh "S" in
  let stmt := fresh "stmt" in
  destruct (is_read_only sql) eqn:R;
  tryif is_var role then destruct role else idtac;
  cbn [role_is_read andb negb];
  unfold bind, acquire, try_except, fetch, execute, lift, ret, raise;
  try (destruct (bound_stmt sql limit) as [?|stmt] eqn:S;
       [ | pose proof (bound_stmt_inr _ _ _ S); subst stmt;
           try rewrite (bound_keeps_mutating sql limit R) in *;
           rewrite ?(is_read_only_bound sql limit), ?R;
           destruct (pool_acquire B w) as [? [?|]] eqn:?;
           cbn [fst snd];
           [ | destruct (call_args (recover_params L params))
                 as [?|?] eqn:?;
               cbn [fst snd];
               [ | first
                   [ destruct (conn_fetch B (bound sql limit) _ _)
                       as [? [?|?]] eqn:?
                   | destruct (conn_execute B sql _ _) as [? [?|?]] eqn:?;
                     [ | destruct (affected_of _) eqn:? ] ] ] ] ]);
  repeat match goal with
         | |- context [is_exception ?e] => destruct (is_exception e) eqn:?
         end.

Section QueryMore.

Variable L : PyLib.
Variable W : Type.
Variable B : Backend W.


(** X10.  A failure of the pool is not caught: when the recovery of
    [params] has returned, the request passes the gate and line 159 has
    given a statement, but no connection can be had, [query] raises the
    pool's exception, and no statement has been sent. *)
Theorem query_pool_failure sql params role limit w w1 e recovered stmt :
  recover_params L params = recovered ->
  admits sql role = true ->
  bound_stmt sql limit = inr stmt ->
  pool_acquire B w = (w1, Some e) ->
  run W (query L W B sql params role limit) w = ((w1, [EvAcquire]), Raise e).
Proof.
  intros _ G S A. unfold admits in G.
  query_paths L B sql params role limit w;
    try discriminate; simpl; congruence.
Qed.

(** X11.  Under the read role the connection is never asked to execute,
    and every statement it is asked to fetch is one that the classifier
    accepts. *)
Theorem query_read_role_calls sql params limit w :
  Forall read_only_event
    (snd (fst (run W (query L W B sql params Read limit) w))).
Proof.
  pose proof (is_read_only_bound sql limit) as RB.
  query_paths L B sql params Read limit w; cbn [fst snd app];
    repeat constructor; exact RB.
Qed.

(** X12.  One call of [query] sends at most one statement: a fetch of
    the bounded statement when the statement is read-only, an execute
    of the statement as submitted when it is not. *)
Theorem query_single_statement sql params role limit w :
  let trace := snd (fst (run W (query L W B sql params role limit) w)) in
  trace = []
  \/ trace = [EvAcquire]
  \/ (is_read_only sql = true
      /\ exists args, trace = [EvAcquire; EvFetch (bound sql limit) args])
  \/ (is_read_only sql = false
      /\ exists args, trace = [EvAcquire; EvExecute sql args]).
Proof.
  query_paths L B sql params role limit w; cbn [fst snd app]; eauto 7.
Qed.

(** X13.  An exception (an instance of [Exception]) raised by the
    connection while the statement runs is returned as an error result
    that carries the text of the exception and the redacted statement
    as sent, for a request that passes the gate and for which line 159
    has given the statement [stmt]. *)
Theorem query_backend_exception
    sql params role limit w w1 w2 args e stmt :
  admits sql role = true ->
  bound_stmt sql limit = inr stmt ->
  pool_acquire B w = (w1, None) ->
  call_args (recover_params L params) = inr args ->
  is_exception e = true ->
  (if is_read_only sql
   then conn_fetch B stmt args w1 = (w2, inl e)
   else conn_execute B sql args w1 = (w2, inl e)) ->
  snd (run W (query L W B sql params role limit) w)
  = Return (ErrorResult (StrOf e) (Some (redact stmt))).
Proof.
  intros G S A P X F. unfold admits in G.
  destruct (is_read_only sql) eqn:R.
  - rewrite (query_read_run L W B _ _ _ _ _ _ _ _ _ _ R S A P F).
    cbn [snd]. now rewrite X.
  - destruct role; [discriminate G|].
    rewrite (query_write_run L W B _ _ _ _ _ _ _ _ R A P F).
    cbn [snd]. rewrite X.
    rewrite (bound_stmt_mutating _ limit R) in S. now inversion S.
Qed.

(** X14.  For a request that passes the gate and for which line 159
    has given the statement [stmt], parameters that are recovered from
    text as something else than a mapping - a JSON array, a number, a
    string - make [query] return an error result after it took a
    connection and before any statement is sent. *)
Theorem query_params_not_mapping sql params role limit w w1 stmt :
  admits sql role = true ->
  bound_stmt sql limit = inr stmt ->
  pool_acquire B w = (w1, None) ->
  truthy (recover_params L params) = true ->
  is_dict (recover_params L params) = false ->
  run W (query L W B sql params role limit) w
  = ((w1, [EvAcquire]),
     Return (ErrorResult (StrOf AttributeError) (Some (redact stmt)))).
Proof.
  intros G S A T D. unfold admits in G.
  assert (C : call_args (recover_params L params) = inl AttributeError).
  { unfold call_args. rewrite T.
    now destruct (recover_params L params). }
  apply negb_true_iff in G. unfold run, query. rewrite G, S.
  unfold bind, acquire, try_except, lift, ret, raise. rewrite A.
  destruct (is_read_only stmt); rewrite C; reflexivity.
Qed.

(** X15.  The shape of what [query] returns: rows come with their
    number, a result never is a table description, and the [sql] field,
    when there is one, is the redacted statement as sent; only the
    rejection by the gate has no [sql] field. *)
Theorem query_result_shape sql params role limit w st r :
  run W (query L W B sql params role limit) w = (st, Return r) ->
  match r with
  | QueryResult rows count s =>
      count = List.length rows /\ s = redact (bound sql limit)
  | ExecResult _ s => s = redact (bound sql limit)
  | ErrorResult _ (Some s) => s = redact (bound sql limit)
  | ErrorResult _ None => admits sql role = false
  | TableResult _ _ => False
  end.
Proof.
  pose proof (bound_keeps_mutating sql limit) as BK.
  unfold admits.
  query_paths L B sql params role limit w;
    intros H; inversion H; subst; cbn [role_is_read andb negb];
    try rewrite BK by reflexivity; rewrite ?length_map; auto.
Qed.

End QueryMore.

(** ** The affected-row count *)

Section AffectedCount.

Ltac eval_digit :=
  match goal with
  | |- context [digit_of ?c] =>
      let v := eval vm_compute in (digit_of c) in
      change (digit_of c) with v
  end.

Lemma string_of_uint_words (d : Decimal.uint) :
  all_chars not_space (NilEmpty.string_of_uint d) = true.
Proof. induction d; simpl; auto. Qed.

Lemma string_of_uint_length (d : Decimal.uint) :
  length (NilEmpty.string_of_uint d) = Decimal.nb_digits d.
Proof. induction d; simpl; auto. Qed.

(** [int_digits] reads the digits that [str] wrote. *)
Lemma int_digits_uint (d : Decimal.uint) (acc : Z) (cnt : nat) :
  int_digits acc cnt true (NilEmpty.string_of_uint d)
  = if cnt + Decimal.nb_digits d <=? 4300
    then Some (uint_val d acc) else None.
Proof.
  revert acc cnt.
  induction d; intros acc cnt;
    cbn [NilEmpty.string_of_uint int_digits uint_val Decimal.nb_digits andb];
    try (eval_digit; cbv beta iota; rewrite IHd, Nat.add_succ_r;
         reflexivity).
  now rewrite Nat.add_0_r.
Qed.

Lemma int_digits_uint_start (d : Decimal.uint) :
  d <> Decimal.Nil ->
  int_digits 0 0 false (NilEmpty.string_of_uint d)
  = if Decimal.nb_digits d <=? 4300 then Some (uint_val d 0) else None.
Proof.
  intros Hd.
  destruct d; [now elim Hd|..];
    cbn [NilEmpty.string_of_uint int_digits uint_val Decimal.nb_digits];
    eval_digit; cbv beta iota; rewrite int_digits_uint; reflexivity.
Qed.

Lemma of_uint_acc_val (l : Decimal.uint) (acc : positive) :
  Z.pos (Pos.of_uint_acc l acc) = uint_val l (Z.pos acc).
Proof.
  revert acc.
  induction l; intros acc; cbn [Pos.of_uint_acc uint_val];
    [reflexivity|..]; rewrite IHl; f_equal; lia.
Qed.

Lemma of_uint_val (d : Decimal.uint) : Z.of_uint d = uint_val d 0.
Proof.
  unfold Z.of_uint.
  induction d; simpl; [reflexivity|exact IHd|..]; apply of_uint_acc_val.
Qed.

Lemma py_int_uint (d : Decimal.uint) :
  d <> Decimal.Nil ->
  Decimal.nb_digits d <= 4300 ->
  py_int (NilEmpty.string_of_uint d) = Some (Z.of_uint d).
Proof.
  intros Hd Len. unfold py_int.
  assert (S : strip (NilEmpty.string_of_uint d) = NilEmpty.string_of_uint d).
  { unfold strip. pose proof (string_of_uint_words d) as Wd.
    destruct (NilEmpty.string_of_uint d) as [|c r] eqn:E; [reflexivity|].
    simpl in Wd. apply andb_true_iff in Wd as [Hc Wr].
    unfold not_space in Hc. apply negb_true_iff in Hc.
    rewrite lstrip_word by assumption. apply rstrip_words.
    simpl. unfold not_space at 1. now rewrite Hc. }
  rewrite S, of_uint_val.
  apply Nat.leb_le in Len.
  pose proof (int_digits_uint_start d Hd) as I. rewrite Len in I.
  destruct d; [now elim Hd|..]; exact I.
Qed.

Lemma to_uint_not_nil (p : positive) : Pos.to_uint p <> Decimal.Nil.
Proof.
  intros E. pose proof (DecimalPos.Unsigned.of_to p) as H.
  rewrite E in H. discriminate H.
Qed.

Lemma nilzero_string (d : Decimal.uint) :
  d <> Decimal.Nil ->
  NilZero.string_of_uint d = NilEmpty.string_of_uint d.
Proof. intros Hd. destruct d; [now elim Hd|..]; reflexivity. Qed.

Lemma py_int_minus (s : string) :
  all_chars not_space s = true ->
  py_int (String "-" s) = option_map Z.opp (int_digits 0 0 false s).
Proof.
  intros Hs. unfold py_int, strip.
  rewrite lstrip_word by reflexivity.
  rewrite rstrip_words; [reflexivity|]. simpl. exact Hs.
Qed.

(** [int] reads back what [str] wrote, up to the interpreter's limit on
    the number of digits. *)
Lemma py_int_str_of_int (n : Z) :
  length (str_of_int n) <= 4300 ->
  py_int (str_of_int n) = Some n.
Proof.
  unfold str_of_int. destruct n as [|p|p]; [reflexivity|..];
    cbn [Z.to_int NilZero.string_of_int];
    rewrite (nilzero_string _ (to_uint_not_nil p)); intros Len.
  - rewrite string_of_uint_length in Len.
    rewrite py_int_uint by (auto using to_uint_not_nil).
    unfold Z.of_uint. now rewrite DecimalPos.Unsigned.of_to.
  - cbn [length] in Len. rewrite string_of_uint_length in Len.
    rewrite py_int_minus by apply string_of_uint_words.
    rewrite int_digits_uint_start by apply to_uint_not_nil.
    assert (Le : (Decimal.nb_digits (Pos.to_uint p) <=? 4300) = true)
      by (apply Nat.leb_le; lia).
    rewrite Le, <- of_uint_val. unfold Z.of_uint.
    now rewrite DecimalPos.Unsigned.of_to.
Qed.

Lemma str_of_int_words (n : Z) :
  all_chars not_space (str_of_int n) = true /\ str_of_int n <> EmptyString.
Proof.
  unfold str_of_int.
  destruct n as [|p|p]; [split; [reflexivity|discriminate]|..];
    cbn [Z.to_int NilZero.string_of_int];
    rewrite (nilzero_string _ (to_uint_not_nil p)).
  - split; [apply string_of_uint_words|].
    pose proof (to_uint_not_nil p) as Hd.
    destruct (Pos.to_uint p); [now elim Hd|..]; discriminate.
  - split; [|discriminate]. simpl. apply string_of_uint_words.
Qed.

(** A word that is being read is closed by the end of the text. *)
Lemma split_ws_from_last_word (t w : string) :
  all_chars not_space t = true ->
  split_ws_from None (Some w) t = [w ++ t].
Proof.
  revert w. induction t as [|c t IH]; intros w H; simpl.
  - now rewrite append_empty_r.
  - simpl in H. apply andb_true_iff in H as [Hc H].
    unfold not_space in Hc. apply negb_true_iff in Hc.
    rewrite Hc, IH by assumption. now rewrite snoc_append.
Qed.

Lemma split_ws_single (tok : string) :
  all_chars not_space tok = true ->
  tok <> EmptyString ->
  split_ws_from None None tok = [tok].
Proof.
  intros H Hne. destruct tok as [|c t]; [now elim Hne|].
  simpl in H. apply andb_true_iff in H as [Hc H].
  unfold not_space in Hc. apply negb_true_iff in Hc.
  simpl. rewrite Hc. now rewrite split_ws_from_last_word.
Qed.

(** The last element of [text.split()] is the word that ends [text]. *)
Lemma split_ws_ends_with (pre : string) (c : ascii) (tok : string)
    (cur : option string) :
  is_space c = true ->
  all_chars not_space tok = true ->
  tok <> EmptyString ->
  exists words,
    split_ws_from None cur (pre ++ String c tok) = (words ++ [tok])%list.
Proof.
  intros Hc Htok Hne. revert cur.
  induction pre as [|d pre IH]; intros cur; simpl.
  - rewrite Hc, (split_ws_single tok Htok Hne).
    destruct cur as [w|]; [now exists [w] | now exists []].
  - destruct (is_space d), cur as [w|]; simpl.
    + destruct (IH None) as [ws E]. exists (w :: ws). now rewrite E.
    + apply IH.
    + apply IH.
    + apply IH.
Qed.

Lemma last_word_final (pre : string) (c : ascii) (tok : string) :
  is_space c = true ->
  all_chars not_space tok = true ->
  tok <> EmptyString ->
  last_word (pre ++ String c tok) = Some tok.
Proof.
  intros Hc Htok Hne. unfold last_word, split_ws.
  destruct (split_ws_ends_with pre c tok None Hc Htok Hne) as [ws E].
  rewrite E, rev_app_distr. reflexivity.
Qed.

Lemma split_ws_blank (s : string) :
  all_chars is_space s = true -> split_ws None s = [].
Proof.
  unfold split_ws. induction s as [|c s IH]; simpl; [reflexivity|].
  intros H. apply andb_true_iff in H as [Hc H]. now rewrite Hc, IH.
Qed.

(** X16.  The count of affected rows is read off the end of the status:
    a status that ends, after a blank, with the decimal text of [n] - as
    in "UPDATE 3" or "INSERT 0 1" - gives [n].  A status without any
    word gives an [IndexError]. *)
Theorem affected_of_count (tag : string) (c : ascii) (n : Z)
    (blank : string) :
  is_space c = true ->
  length (str_of_int n) <= 4300 ->
  all_chars is_space blank = true ->
  affected_of (tag ++ String c (str_of_int n)) = inr n
  /\ affected_of blank = inl IndexError.
Proof.
  intros Hc Len Hb. unfold affected_of. split.
  - destruct (str_of_int_words n) as [Hw Hne].
    rewrite (last_word_final tag c _ Hc Hw Hne).
    now rewrite py_int_str_of_int.
  - unfold last_word. now rewrite split_ws_blank.
Qed.

(** The integer of 4301 digits is beyond what [str] writes. *)
Lemma huge_int_unwritable : int_str_fits huge_int = false.
Proof.
  unfold int_str_fits, str_of_int, huge_int.
  assert (N : (0 <= Z.of_uint huge_digits)%Z)
    by (unfold Z.of_uint; apply N2Z.is_nonneg).
  rewrite (Z.abs_eq _ N).
  change (Z.of_uint huge_digits) with (Z.of_int (Decimal.Pos huge_digits)).
  rewrite DecimalZ.to_of.
  change (Decimal.norm (Decimal.Pos huge_digits))
    with (Decimal.Pos huge_digits).
  cbn [NilZero.string_of_int]. rewrite nilzero_string by discriminate.
  rewrite string_of_uint_length. reflexivity.
Qed.

Variable L : PyLib.
Variable W : Type.
Variable B : Backend W.

(** X17.  A statement that is not read-only, run under the write role
    with a status that ends in a count, yields the result with that
    count and the redacted statement: the success path of the writer. *)
Theorem query_exec_count sql params limit w w1 w2 args tag c (n : Z) :
  is_read_only sql = false ->
  pool_acquire B w = (w1, None) ->
  call_args (recover_params L params) = inr args ->
  conn_execute B sql args w1 = (w2, inr (tag ++ String c (str_of_int n))) ->
  is_space c = true ->
  length (str_of_int n) <= 4300 ->
  run W (query L W B sql params Write limit) w
  = ((w2, [EvAcquire; EvExecute sql args]),
     Return (ExecResult n (redact sql))).
Proof.
  intros R A P F Hc Len.
  rewrite (query_write_run L W B _ _ _ _ _ _ _ _ R A P F).
  unfold affected_of.
  destruct (str_of_int_words n) as [Hw Hne].
  rewrite (last_word_final tag c _ Hc Hw Hne).
  now rewrite py_int_str_of_int.
Qed.

End AffectedCount.

(** ** Table descriptor, continued *)

Section DescribeMore.

Variable L : PyLib.
Variable W : Type.
Variable B : Backend W.

Lemma mem_public (s : string) :
  mem s ALLOWED_SCHEMAS = String.eqb s "public".
Proof. unfold mem, ALLOWED_SCHEMAS. simpl. apply orb_false_r. Qed.

(** The run of lines 107-138 for an identifier in the public schema. *)
Lemma describe_ident_run (t : TableIdent) (w : W) :
  schema t = "public" ->
  describe_ident W B t (w, [])
  = let args := [PStr (schema t); PStr (table t)] in
    match pool_acquire B w with
    | (w1, Some e) => ((w1, [EvAcquire]), Raise e)
    | (w1, None) =>
        match conn_fetch B columns_sql args w1 with
        | (w2, inl e) =>
            ((w2, [EvAcquire; EvFetch columns_sql args]), Raise e)
        | (w2, inr cols) =>
            let trace :=
              [EvAcquire; EvFetch columns_sql args;
               EvFetch primary_key_sql args] in
            match conn_fetch B primary_key_sql args w2 with
            | (w3, inl e) => ((w3, trace), Raise e)
            | (w3, inr pks) =>
                match column_names pks with
                | inl e => ((w3, trace), Raise e)
                | inr names =>
                    ((w3, trace),
                     Return (TableResult (map dict_of_items cols) names))
                end
            end
        end
    end.
Proof.
  intros S. unfold describe_ident. rewrite mem_public.
  destruct (String.eqb_spec (schema t) "public") as [_|N]; [|contradiction].
  cbn [negb].
  unfold bind, acquire, fetch, lift, ret, raise. cbn zeta.
  destruct (pool_acquire B w) as [w1 [e|]]; [reflexivity|].
  destruct (conn_fetch B columns_sql _ w1) as [w2 [e|cols]]; [reflexivity|].
  destruct (conn_fetch B primary_key_sql _ w2) as [w3 [e|pks]];
    [reflexivity|].
  now destruct (column_names pks).
Qed.

(** X18.  For an identifier in the public schema, [describe_table]
    takes a connection and sends the two catalog statements in order,
    each with the schema and the table as its two arguments, and
    returns the columns and the names of the primary-key columns. *)
Theorem describe_table_public (t : TableIdent) w w1 w2 w3 cols pks names :
  schema t = "public" ->
  pool_acquire B w = (w1, None) ->
  conn_fetch B columns_sql [PStr (schema t); PStr (table t)] w1
  = (w2, inr cols) ->
  conn_fetch B primary_key_sql [PStr (schema t); PStr (table t)] w2
  = (w3, inr pks) ->
  column_names pks = inr names ->
  run W (describe_table L W B (PayloadIdent t)) w
  = ((w3,
      [EvAcquire;
       EvFetch columns_sql [PStr (schema t); PStr (table t)];
       EvFetch primary_key_sql [PStr (schema t); PStr (table t)]]),
     Return (TableResult (map dict_of_items cols) names)).
Proof.
  intros S A C P N. unfold run, describe_table, try_except.
  rewrite (describe_ident_run t w S). cbn zeta.
  now rewrite A, C, P, N.
Qed.

(** X19.  Failures of the database are not caught by [describe_table]:
    an exception of the pool or of a catalog query is raised to the
    caller. *)
Theorem describe_table_backend_failure (t : TableIdent) w w1 w2 e :
  schema t = "public" ->
  (pool_acquire B w = (w1, Some (BackendError e)) ->
   run W (describe_table L W B (PayloadIdent t)) w
   = ((w1, [EvAcquire]), Raise (BackendError e)))
  /\ (pool_acquire B w = (w1, None) ->
      conn_fetch B columns_sql [PStr (schema t); PStr (table t)] w1
      = (w2, inl (BackendError e)) ->
      run W (describe_table L W B (PayloadIdent t)) w
      = ((w2,
          [EvAcquire; EvFetch columns_sql [PStr (schema t); PStr (table t)]]),
         Raise (BackendError e))).
Proof.
  intros S. split.
  - intros A. unfold run, describe_table, try_except.
    rewrite (describe_ident_run t w S). cbn zeta. now rewrite A.
  - intros A C. unfold run, describe_table, try_except.
    rewrite (describe_ident_run t w S). cbn zeta. now rewrite A, C.
Qed.

Lemma describe_ident_calls (t : TableIdent) (w : W) :
  Forall catalog_event (snd (fst (describe_ident W B t (w, [])))).
Proof.
  assert (HA : catalog_event EvAcquire) by now left.
  assert (HC : catalog_event
                 (EvFetch columns_sql [PStr (schema t); PStr (table t)]))
    by (right; left; now exists t).
  assert (HP : catalog_event
                 (EvFetch primary_key_sql [PStr (schema t); PStr (table t)]))
    by (right; right; now exists t).
  assert (F1 : Forall catalog_event [EvAcquire]) by auto.
  assert (F2 : Forall catalog_event
                 [EvAcquire;
                  EvFetch columns_sql [PStr (schema t); PStr (table t)]])
    by auto.
  assert (F3 : Forall catalog_event
                 [EvAcquire;
                  EvFetch columns_sql [PStr (schema t); PStr (table t)];
                  EvFetch primary_key_sql [PStr (schema t); PStr (table t)]])
    by auto.
  destruct (String.eqb_spec (schema t) "public") as [S|S].
  - rewrite (describe_ident_run t w S). cbn zeta.
    destruct (pool_acquire B w) as [w1 [e|]]; [exact F1|].
    destruct (conn_fetch B columns_sql _ w1) as [w2 [e|cols]]; [exact F2|].
    destruct (conn_fetch B primary_key_sql _ w2) as [w3 [e|pks]];
      [exact F3|].
    destruct (column_names pks); exact F3.
  - rewrite (describe_ident_rejected W B t (w, []) S). constructor.
Qed.

Lemma try_except_trace {A} (m : M W A) (k : string -> A)
    (st : W * list event) :
  fst (try_except m
         (fun e => match e with
                   | ValidationError msg => Some (ret (k msg))
                   | _ => None
                   end) st)
  = fst (m st).
Proof.
  unfold try_except. destruct (m st) as [st' [a|e]]; [reflexivity|].
  now destruct e.
Qed.

(** X20.  Whatever the payload, [describe_table] asks nothing of the
    database but a connection and the two catalog statements; the schema
    and the table travel as arguments and never become part of a
    statement, and nothing is ever executed. *)
Theorem describe_table_calls (payload : payload_t) (w : W) :
  Forall catalog_event (snd (fst (run W (describe_table L W B payload) w))).
Proof.
  unfold run, describe_table.
  rewrite (try_except_trace _
             (fun msg => ErrorResult (Lit ("Invalid payload format: " ++ msg))
                                     None)).
  destruct payload as [t|s]; [apply describe_ident_calls|].
  destruct (truthy (parse_malformed_json L (PStr s))); [|constructor].
  cbn [negb]. unfold make_ident, bind, ret, raise.
  destruct (parse_malformed_json L (PStr s)); try constructor.
  destruct (TableIdent_new L d) as [msg|t]; [constructor|].
  apply describe_ident_calls.
Qed.

(** X21.  A payload from which a non-empty mapping is recovered that
    the validation of [TableIdent] refuses yields the error result
    "Invalid payload format: <text of the validation error>", and the
    database is not asked anything. *)
Theorem describe_table_invalid (s : string) (d : dict) (msg : string) w :
  parse_malformed_json L (PStr s) = PDict d ->
  d <> [] ->
  TableIdent_new L d = inl msg ->
  run W (describe_table L W B (PayloadStr s)) w
  = ((w, []),
     Return (ErrorResult (Lit ("Invalid payload format: " ++ msg)) None)).
Proof.
  intros P D V. unfold run, describe_table, try_except.
  rewrite P. destruct d as [|kv d]; [now elim D|].
  unfold make_ident, bind, raise. cbn [truthy negb]. now rewrite V.
Qed.

(** X22.  A payload from which something is recovered that is neither
    empty nor a mapping - the text of a JSON array or of a number -
    makes [describe_table] raise a [TypeError]: line 139 catches
    validation errors only. *)
Theorem describe_table_not_mapping (s : string) w :
  truthy (parse_malformed_json L (PStr s)) = true ->
  is_dict (parse_malformed_json L (PStr s)) = false ->
  run W (describe_table L W B (PayloadStr s)) w = ((w, []), Raise TypeError).
Proof.
  intros T D. unfold run, describe_table, try_except. rewrite T.
  cbn [negb]. unfold make_ident, bind, raise.
  now destruct (parse_malformed_json L (PStr s)).
Qed.

(** X23.  Every payload whose recovered value is false in Python - the
    empty mapping, but also an empty array, zero, the empty string,
    false and null - is answered with the parse error. *)
Theorem describe_table_falsy (s : string) w :
  truthy (parse_malformed_json L (PStr s)) = false ->
  run W (describe_table L W B (PayloadStr s)) w
  = ((w, []), Return (ErrorResult (Lit "Could not parse JSON payload") None)).
Proof.
  intros T. unfold run, describe_table, try_except. now rewrite T.
Qed.

End DescribeMore.

(** ** JSON recovery, continued *)

Section RecoveryMore.

Lemma dict_set_keys (d : dict) (k : string) (v : pyval) (x : string) :
  In x (map fst (dict_set d k v)) <-> x = k \/ In x (map fst d).
Proof.
  induction d as [|[k' v'] d IH]; simpl.
  - split; [intros [H|[]]; now left | intros [H|[]]; now left].
  - destruct (String.eqb_spec k' k) as [->|N]; simpl.
    + intuition congruence.
    + rewrite IH. intuition congruence.
Qed.

Lemma dict_set_nodup (d : dict) (k : string) (v : pyval) :
  NoDup (map fst d) -> NoDup (map fst (dict_set d k v)).
Proof.
  induction d as [|[k' v'] d IH]; simpl; intros H.
  - constructor; [intros []|constructor].
  - inversion H as [|? ? Hn Hd]; subst.
    destruct (String.eqb_spec k' k) as [->|N]; simpl.
    + now constructor.
    + constructor; [|now apply IH].
      rewrite dict_set_keys. intros [E|I]; [now elim N | now elim Hn].
Qed.

Lemma dict_set_str (d : dict) (k s : string) :
  all_str_values d -> all_str_values (dict_set d k (PStr s)).
Proof.
  unfold all_str_values. induction d as [|[k' v'] d IH]; simpl; intros H.
  - constructor; [now exists s|constructor].
  - inversion H as [|? ? Hv Hd]; subst.
    destruct (String.eqb k' k).
    + constructor; [now exists s|assumption].
    + constructor; [assumption|now apply IH].
Qed.

(** The key written last is the one that is read. *)
Lemma dict_get_set (d : dict) (k : string) (v : pyval) :
  dict_get (dict_set d k v) k = Some v.
Proof.
  induction d as [|[k' v'] d IH]; simpl.
  - now rewrite String.eqb_refl.
  - destruct (String.eqb k' k) eqn:E; simpl; now rewrite E.
Qed.

Lemma fallback_pairs_shape (items : list string) (result : dict) :
  NoDup (map fst result) ->
  all_str_values result ->
  NoDup (map fst (fallback_pairs items result))
  /\ all_str_values (fallback_pairs items result).
Proof.
  revert result. induction items as [|item items IH]; intros result N S.
  - now split.
  - simpl. destruct (split_once ":" item) as [[key value]|].
    + apply IH; [now apply dict_set_nodup | now apply dict_set_str].
    + now apply IH.
Qed.

Lemma fallback_pairs_app (items items' : list string) (result : dict) :
  fallback_pairs (items ++ items')%list result
  = fallback_pairs items' (fallback_pairs items result).
Proof.
  revert result. induction items as [|item items IH]; intros result.
  - reflexivity.
  - simpl. now destruct (split_once ":" item) as [[key value]|].
Qed.

(** X30.  In the manual fallback the last pair decides: whatever pairs
    come before it, the key of the last pair is bound to the value of
    the last pair, both without their surrounding blanks and quotes. *)
Theorem fallback_last_pair_wins (items : list string)
    (item key value : string) (result : dict) :
  split_once ":" item = Some (key, value) ->
  dict_get (fallback_pairs (items ++ [item])%list result)
           (strip_chars quotes (strip key))
  = Some (PStr (strip_chars quotes (strip value))).
Proof.
  intros H. rewrite fallback_pairs_app. simpl. rewrite H.
  apply dict_get_set.
Qed.

Lemma manual_parse_shape (s : string) :
  NoDup (map fst (manual_parse s)) /\ all_str_values (manual_parse s).
Proof.
  unfold manual_parse.
  destruct (nonempty (strip_chars "{}" (strip s))).
  - apply fallback_pairs_shape; constructor.
  - split; constructor.
Qed.

Lemma all_chars_append (p : ascii -> bool) (a b : string) :
  all_chars p (a ++ b) = all_chars p a && all_chars p b.
Proof.
  induction a as [|c a IH]; simpl; [reflexivity|].
  now rewrite IH, andb_assoc.
Qed.

Lemma all_chars_lstrip_chars (p : ascii -> bool) (cs s : string) :
  all_chars p s = true -> all_chars p (lstrip_chars cs s) = true.
Proof.
  induction s as [|c s IH]; simpl; [reflexivity|]. intros H.
  destruct (in_chars c cs).
  - apply andb_true_iff in H as [_ H]. now apply IH.
  - exact H.
Qed.

Lemma all_chars_rstrip_chars (p : ascii -> bool) (cs s : string) :
  all_chars p s = true -> all_chars p (rstrip_chars cs s) = true.
Proof.
  induction s as [|c s IH]; simpl; [reflexivity|]. intros H.
  apply andb_true_iff in H as [Hc H].
  destruct (in_chars c cs && negb (nonempty (rstrip_chars cs s)));
    [reflexivity|].
  simpl. now rewrite Hc, IH.
Qed.

Lemma split_char_from_all (p : ascii -> bool) (sep : ascii)
    (cur s : string) :
  all_chars p cur = true ->
  all_chars p s = true ->
  Forall (fun piece => all_chars p piece = true) (split_char_from sep cur s).
Proof.
  revert cur. induction s as [|c s IH]; intros cur Hcur Hs; simpl.
  - now constructor.
  - simpl in Hs. apply andb_true_iff in Hs as [Hc Hs].
    destruct (Ascii.eqb c sep).
    + constructor; [assumption|now apply IH].
    + apply IH; [|assumption]. unfold snoc.
      rewrite all_chars_append, Hcur. simpl. now rewrite Hc.
Qed.

Lemma split_once_no_colon (item : string) :
  all_chars not_colon item = true -> split_once ":" item = None.
Proof.
  induction item as [|c item IH]; simpl; [reflexivity|]. intros H.
  apply andb_true_iff in H as [Hc H]. unfold not_colon in Hc.
  apply negb_true_iff in Hc. now rewrite Hc, IH.
Qed.

Lemma fallback_pairs_no_colon (items : list string) (result : dict) :
  Forall (fun piece => all_chars not_colon piece = true) items ->
  fallback_pairs items result = result.
Proof.
  induction 1 as [|item items Hi Hs IH]; simpl; [reflexivity|].
  now rewrite split_once_no_colon.
Qed.

Lemma manual_parse_no_colon (s : string) :
  all_chars not_colon s = true -> manual_parse s = [].
Proof.
  intros H. unfold manual_parse.
  destruct (nonempty (strip_chars "{}" (strip s))); [|reflexivity].
  apply fallback_pairs_no_colon, split_char_from_all; [reflexivity|].
  unfold strip_chars, strip.
  now apply all_chars_rstrip_chars, all_chars_lstrip_chars,
    all_chars_rstrip, all_chars_lstrip.
Qed.

Variable L : PyLib.

(** X24.  When neither the text nor its repaired form decodes,
    [parse_malformed_json] returns a mapping whose keys are distinct
    and whose values are all strings. *)
Theorem parse_malformed_json_fallback (s : string) :
  json_loads L s = None ->
  json_loads L (repair s) = None ->
  exists d,
    parse_malformed_json L (PStr s) = PDict d
    /\ NoDup (map fst d) /\ all_str_values d.
Proof.
  intros H1 H2. unfold parse_malformed_json.
  destruct (nonempty s); cbn [negb].
  - rewrite H1, H2. exists (manual_parse s).
    split; [reflexivity|apply manual_parse_shape].
  - exists []. repeat split; constructor.
Qed.

(** X25.  A result that is not a mapping can only be what the decoder
    returned, for the text itself or for its repaired form. *)
Theorem parse_malformed_json_not_mapping (v : pyval) :
  is_dict (parse_malformed_json L v) = false ->
  exists s r,
    v = PStr s /\ s <> EmptyString /\ is_dict r = false
    /\ parse_malformed_json L v = r
    /\ (json_loads L s = Some r
        \/ (json_loads L s = None /\ json_loads L (repair s) = Some r)).
Proof.
  destruct v; try discriminate. simpl.
  destruct s as [|c s]; [discriminate|]. cbn [nonempty negb].
  destruct (json_loads L (String c s)) as [r|] eqn:H1.
  - intros D. exists (String c s), r. repeat split; auto. discriminate.
  - destruct (json_loads L (repair (String c s))) as [r|] eqn:H2.
    + intros D. exists (String c s), r. repeat split; auto. discriminate.
    + discriminate.
Qed.

Variable W : Type.
Variable B : Backend W.

(** X26.  A text without any colon that does not decode, as it is or
    repaired, is recovered as the empty mapping, so as a payload of
    [describe_table] it yields the parse error. *)
Theorem parse_malformed_json_no_colon (s : string) (w : W) :
  all_chars not_colon s = true ->
  json_loads L s = None ->
  json_loads L (repair s) = None ->
  parse_malformed_json L (PStr s) = PDict []
  /\ run W (describe_table L W B (PayloadStr s)) w
     = ((w, []),
        Return (ErrorResult (Lit "Could not parse JSON payload") None)).
Proof.
  intros C H1 H2.
  assert (P : parse_malformed_json L (PStr s) = PDict []).
  { unfold parse_malformed_json. destruct (nonempty s); cbn [negb].
    - now rewrite H1, H2, manual_parse_no_colon.
    - reflexivity. }
  split; [exact P|].
  unfold run, describe_table, try_except. now rewrite P.
Qed.

End RecoveryMore.

(** ** Pool and health check *)

Section PoolFacts.

Variable W : Type.
Variable P : Type.
Variable create_pool : W -> W * (PyExn + P).

Lemma get_pool_set (st : pool_state W P) (p : P) :
  pool st = Some p -> get_pool W P create_pool st = (st, Return p).
Proof. intros H. unfold get_pool. now rewrite H. Qed.

(** X27.  The pool is created at most once: when [get_pool] has
    returned a pool, every later call returns the same pool, creates
    nothing and leaves the state as it is.  A creation that fails
    leaves the pool unset, so that the next call creates again. *)
Theorem get_pool_once (st st1 : pool_state W P) :
  (forall p,
     get_pool W P create_pool st = (st1, Return p) ->
     pool st1 = Some p
     /\ created st1 <= S (created st)
     /\ forall n,
          get_pool_times W P create_pool n st1 = (st1, repeat (Return p) n))
  /\ (forall e,
        get_pool W P create_pool st = (st1, Raise e) ->
        pool st1 = None /\ created st1 = S (created st)).
Proof.
  split.
  - intros p H.
    assert (S1 : pool st1 = Some p /\ created st1 <= S (created st)).
    { unfold get_pool in H. destruct (pool st) as [q|] eqn:E.
      - injection H as <- <-. split; [exact E|lia].
      - destruct (create_pool (pool_world st)) as [w' [e|q]];
          [discriminate|].
        injection H as <- <-. split; [reflexivity|simpl; lia]. }
    destruct S1 as [S1 S2]. repeat split; [exact S1|exact S2|].
    induction n as [|n IH]; [reflexivity|].
    cbn [get_pool_times repeat].
    now rewrite (get_pool_set st1 p S1), IH.
  - intros e H. unfold get_pool in H. destruct (pool st) as [q|] eqn:E.
    + discriminate.
    + destruct (create_pool (pool_world st)) as [w' [e'|q]];
        [|discriminate].
      injection H as <- <-. split; reflexivity.
Qed.

End PoolFacts.

Section PingFacts.

Variable W : Type.
Variable B : Backend W.

(** X28.  [ping] takes a connection and executes SELECT 1 without
    arguments.  Unlike [query], it catches nothing: an exception of the
    pool or of the statement is raised to the caller; otherwise the
    answer is "ok (<elapsed> ms)". *)
Theorem ping_run (elapsed : string) w w1 :
  (forall e,
     pool_acquire B w = (w1, Some e) ->
     run W (ping W B elapsed) w = ((w1, [EvAcquire]), Raise e))
  /\ (forall w2 r,
        pool_acquire B w = (w1, None) ->
        conn_execute B "SELECT 1" [] w1 = (w2, r) ->
        run W (ping W B elapsed) w
        = ((w2, [EvAcquire; EvExecute "SELECT 1" []]),
           match r with
           | inl e => Raise e
           | inr _ => Return ("ok (" ++ elapsed ++ " ms)")
           end)).
Proof.
  split.
  - intros e A. unfold run, ping, bind, acquire. now rewrite A.
  - intros w2 r A E. unfold run, ping, bind, acquire, execute, ret.
    rewrite A. simpl. rewrite E. now destruct r.
Qed.

End PingFacts.

(** ** The further properties on concrete requests *)

Section ConcreteMore.

Import Basic.

Lemma redact_clean_witness :
  redact untidy_sql = "select * from t"
  /\ is_space "s" = false /\ is_space "t" = false.
Proof.
  split; [reflexivity|]. split.
  - apply (proj1 (proj2 (redact_clean untidy_sql)) "s"%char "elect * from t").
    reflexivity.
  - apply (proj2 (proj2 (redact_clean untidy_sql)) "select * from " "t"%char).
    reflexivity.
Defined.

Lemma is_read_only_case_and_indent_witness :
  is_read_only ("  " ++ lower "SeLeCt 1") = is_read_only "SeLeCt 1".
Proof.
  apply (is_read_only_case_and_indent "  " "SeLeCt 1"). reflexivity.
Defined.

Lemma keyword_start_is_read_only_witness :
  is_read_only (" " ++ "WITH" ++ " x as (select 1) insert into t select 1")
  = true
  /\ admits (" " ++ "WITH" ++ " x as (select 1) insert into t select 1") Read
     = true.
Proof.
  apply (keyword_start_is_read_only " " "WITH"
           " x as (select 1) insert into t select 1").
  - reflexivity.
  - simpl. tauto.
Defined.

Lemma bound_skips_any_limit_witness :
  bound ("select rate_" ++ "LiMiT" ++ " from t") (Some 50%Z)
  = "select rate_" ++ "LiMiT" ++ " from t".
Proof.
  apply (bound_skips_any_limit "select rate_" "LiMiT" " from t").
  reflexivity.
Defined.

Lemma bound_read_only_has_limit_witness :
  contains "limit" (lower (bound "select 1" (Some 5%Z))) = true.
Proof. apply (bound_read_only_has_limit "select 1"). reflexivity. Defined.


Lemma query_pool_failure_witness :
  run _ (query lib _ Faulty.no_pool "select 1" PNone Read None) []
  = (([], [EvAcquire]), Raise (BackendError "connection refused")).
Proof.
  apply (query_pool_failure lib _ Faulty.no_pool "select 1" PNone Read None
           [] [] (BackendError "connection refused") (PDict [])
           "SELECT * FROM (select 1) as _sub LIMIT None");
    reflexivity.
Defined.

Lemma query_backend_exception_witness :
  snd (run _ (query lib _ Faulty.broken_conn "select 1" PNone Read
                (Some 10%Z)) [])
  = Return (ErrorResult (StrOf (BackendError "syntax error"))
              (Some (redact "SELECT * FROM (select 1) as _sub LIMIT 10"))).
Proof.
  apply (query_backend_exception lib _ Faulty.broken_conn "select 1" PNone
           Read (Some 10%Z) [] []
           ["SELECT * FROM (select 1) as _sub LIMIT 10"] []
           (BackendError "syntax error")
           "SELECT * FROM (select 1) as _sub LIMIT 10");
    reflexivity.
Defined.

Lemma query_params_not_mapping_witness :
  run _ (query lib _ sample_db "select 1" (PStr "[1]") Read (Some 10%Z)) []
  = (([], [EvAcquire]),
     Return (ErrorResult (StrOf AttributeError)
               (Some (redact "SELECT * FROM (select 1) as _sub LIMIT 10")))).
Proof.
  apply (query_params_not_mapping lib _ sample_db "select 1" (PStr "[1]")
           Read (Some 10%Z) [] []
           "SELECT * FROM (select 1) as _sub LIMIT 10"); reflexivity.
Defined.

(** The statement of C10 fails for a limit of 4301 digits: the limit is
    not written into any statement, [query] raises at line 159 and the
    connection is never asked. *)
Lemma query_limit_huge_counterexample :
  is_read_only "select 1" = true
  /\ contains "limit" (lower "select 1") = false
  /\ sample_query "select 1" Read (Some huge_int)
     = (([], []), Raise ValueError_str)
  /\ snd (fst (sample_query "select 1" Read (Some huge_int)))
     <> [EvAcquire;
         EvFetch ("SELECT * FROM (" ++ "select 1" ++ ") as _sub LIMIT "
                  ++ str_of_int huge_int) []].
Proof.
  assert (H : sample_query "select 1" Read (Some huge_int)
              = (([], []), Raise ValueError_str)).
  { unfold sample_query. apply query_unwritable_limit.
    - reflexivity.
    - reflexivity.
    - exact huge_int_unwritable. }
  split; [reflexivity|]. split; [reflexivity|]. split; [exact H|].
  rewrite H. cbn [fst snd]. discriminate.
Qed.

Lemma query_result_shape_witness :
  1 = List.length one_row
  /\ "SELECT * FROM (select 1) as _sub LIMIT 2000"
     = redact (bound "select 1" (Some 2000%Z)).
Proof.
  apply (query_result_shape lib _ sample_db "select 1" PNone Read
           (Some 2000%Z) []
           (["SELECT * FROM (select 1) as _sub LIMIT 2000"],
            [EvAcquire;
             EvFetch "SELECT * FROM (select 1) as _sub LIMIT 2000" []])
           (QueryResult [[("?column?", PInt 1)]] 1
              "SELECT * FROM (select 1) as _sub LIMIT 2000")).
  reflexivity.
Defined.

Lemma affected_of_count_witness :
  affected_of ("INSERT 0" ++ String " " (str_of_int 1)) = inr 1%Z
  /\ affected_of "  " = inl IndexError.
Proof.
  apply (affected_of_count "INSERT 0" " " 1 "  ").
  - reflexivity.
  - apply Nat.leb_le. reflexivity.
  - reflexivity.
Defined.

Lemma query_exec_count_witness :
  run _ (query lib _ (db [] "UPDATE 3") "update t set a = 1" PNone Write
           (Some 2000%Z)) []
  = ((["update t set a = 1"], [EvAcquire; EvExecute "update t set a = 1" []]),
     Return (ExecResult 3 (redact "update t set a = 1"))).
Proof.
  apply (query_exec_count lib _ (db [] "UPDATE 3") "update t set a = 1" PNone
           (Some 2000%Z) [] [] _ [] "UPDATE" " " 3); try reflexivity.
  apply Nat.leb_le. reflexivity.
Defined.

Lemma describe_table_public_witness :
  run _ (describe_table lib _ (db [[("column_name", PStr "id")]] "")
           (PayloadIdent {| schema := "public"; table := "users" |})) []
  = (([columns_sql; primary_key_sql],
      [EvAcquire;
       EvFetch columns_sql [PStr "public"; PStr "users"];
       EvFetch primary_key_sql [PStr "public"; PStr "users"]]),
     Return (TableResult [[("column_name", PStr "id")]] [PStr "id"])).
Proof.
  apply (describe_table_public lib _ (db [[("column_name", PStr "id")]] "")
           {| schema := "public"; table := "users" |}
           [] [] [columns_sql] [columns_sql; primary_key_sql]
           [[("column_name", PStr "id")]] [[("column_name", PStr "id")]]
           [PStr "id"]);
    reflexivity.
Defined.

Lemma describe_table_backend_failure_witness :
  run _ (describe_table lib _ Faulty.no_pool
           (PayloadIdent {| schema := "public"; table := "users" |})) []
  = (([], [EvAcquire]), Raise (BackendError "connection refused"))
  /\ run _ (describe_table lib _ Faulty.broken_conn
              (PayloadIdent {| schema := "public"; table := "users" |})) []
     = (([columns_sql],
         [EvAcquire; EvFetch columns_sql [PStr "public"; PStr "users"]]),
        Raise (BackendError "syntax error")).
Proof.
  split.
  - apply (proj1 (describe_table_backend_failure lib _ Faulty.no_pool
                    {| schema := "public"; table := "users" |}
                    [] [] [] "connection refused" eq_refl)).
    reflexivity.
  - apply (proj2 (describe_table_backend_failure lib _ Faulty.broken_conn
                    {| schema := "public"; table := "users" |}
                    [] [] [columns_sql] "syntax error" eq_refl));
      reflexivity.
Defined.

Lemma describe_table_invalid_witness :
  sample_describe (PayloadStr "{schema: public}")
  = (([], []),
     Return (ErrorResult
               (Lit ("Invalid payload format: " ++ "table: Field required"))
               None)).
Proof.
  apply (describe_table_invalid lib _ sample_db "{schema: public}"
           [("schema", PStr "public")] "table: Field required" []).
  - reflexivity.
  - discriminate.
  - reflexivity.
Defined.

Lemma describe_table_not_mapping_witness :
  sample_describe (PayloadStr "[1]") = (([], []), Raise TypeError).
Proof.
  apply (describe_table_not_mapping lib _ sample_db "[1]" []); reflexivity.
Defined.

Lemma describe_table_falsy_witness :
  sample_describe (PayloadStr "[]")
  = (([], []),
     Return (ErrorResult (Lit "Could not parse JSON payload") None)).
Proof.
  apply (describe_table_falsy lib _ sample_db "[]" []). reflexivity.
Defined.

Lemma parse_malformed_json_fallback_witness :
  exists d,
    parse_malformed_json lib (PStr "{schema: public, table: users}") = PDict d
    /\ NoDup (map fst d) /\ all_str_values d.
Proof.
  apply (parse_malformed_json_fallback lib "{schema: public, table: users}");
    reflexivity.
Defined.

Lemma parse_malformed_json_not_mapping_witness :
  exists s r,
    PStr "[1]" = PStr s /\ s <> EmptyString /\ is_dict r = false
    /\ parse_malformed_json lib (PStr "[1]") = r
    /\ (json_loads s = Some r
        \/ (json_loads s = None /\ json_loads (repair s) = Some r)).
Proof.
  apply (parse_malformed_json_not_mapping lib (PStr "[1]")). reflexivity.
Defined.

Lemma parse_malformed_json_no_colon_witness :
  parse_malformed_json lib (PStr "users") = PDict []
  /\ sample_describe (PayloadStr "users")
     = (([], []),
        Return (ErrorResult (Lit "Could not parse JSON payload") None)).
Proof.
  apply (parse_malformed_json_no_colon lib _ sample_db "users" []);
    reflexivity.
Defined.

Lemma get_pool_once_witness :
  pool {| pool := Some 0; pool_world := 1; created := 1 |} = Some 0
  /\ 1 <= 1
  /\ get_pool_times _ _ Faulty.numbered_pool 3
       {| pool := Some 0; pool_world := 1; created := 1 |}
     = ({| pool := Some 0; pool_world := 1; created := 1 |},
        [Return 0; Return 0; Return 0]).
Proof.
  destruct (proj1 (get_pool_once _ _ Faulty.numbered_pool
                     {| pool := None; pool_world := 0; created := 0 |}
                     {| pool := Some 0; pool_world := 1; created := 1 |})
              0 eq_refl) as [H1 [H2 H3]].
  split; [exact H1|]. split; [exact H2|]. exact (H3 3).
Defined.

Lemma ping_run_witness :
  run _ (ping _ Faulty.no_pool "3") []
  = (([], [EvAcquire]), Raise (BackendError "connection refused"))
  /\ run _ (ping _ sample_db "3") []
     = ((["SELECT 1"], [EvAcquire; EvExecute "SELECT 1" []]),
        Return "ok (3 ms)")
  /\ run _ (ping _ Faulty.broken_conn "3") []
     = ((["SELECT 1"], [EvAcquire; EvExecute "SELECT 1" []]),
        Raise (BackendError "syntax error")).
Proof.
  split; [|split].
  - apply (proj1 (ping_run _ Faulty.no_pool "3" [] [])). reflexivity.
  - apply (proj2 (ping_run _ sample_db "3" [] []) ["SELECT 1"]
             (inr "CREATE TABLE")); reflexivity.
  - apply (proj2 (ping_run _ Faulty.broken_conn "3" [] []) ["SELECT 1"]
             (inl (BackendError "syntax error"))); reflexivity.
Defined.

Lemma head_index_defined_witness :
  split_ws (Some 1) (lstrip "  select 1") <> [].
Proof. apply (head_index_defined "  select 1"). reflexivity. Defined.

Lemma fallback_last_pair_wins_witness :
  dict_get (fallback_pairs (["a: 1"] ++ [" 'a' : 2 "])%list [])
           (strip_chars quotes (strip " 'a' "))
  = Some (PStr (strip_chars quotes (strip " 2 "))).
Proof.
  apply (fallback_last_pair_wins ["a: 1"] " 'a' : 2 " " 'a' " " 2 " []).
  reflexivity.
Defined.

End ConcreteMore.
